(** * Tag-number allocation, reconciliation and validation

    A shallow embedding of the tag engine of the campaign server
    (server.js): [syncTagCounters], [getNextCampaignId], the handlers
    [POST /api/tags/sync], [POST /api/tags/generate], [GET /api/tags/counters],
    [POST /api/campaigns], [PUT /api/campaigns/:campaignId],
    [DELETE /api/campaigns/:campaignId] and [GET /api/campaigns/tag/:tagNumber],
    together with the JavaScript string primitives they rely on.

    Conventions of the embedding.
    - A JavaScript string is a [string]; every character is one code unit
      (code points 0 to 255).
    - A JavaScript number that holds an integer is a [Z]; [NaN] is [None]
      where it can arise ([parseInt]).  The embedding is exact on the safe
      integers, those of absolute value at most 2^53 - 1
      ([MAX_SAFE_INTEGER], [isSafeInteger]): there [n + 1], [String(n)] and
      [parseInt] are what they are on the integers.  Beyond them
      JavaScript rounds to the nearest double; every statement that
      depends on the size of a number says how far the numbers may go.
    - A [channels] field is an array of channel documents, or is not an
      array; a [tagNumber] is a string or some other value.  The query
      [{ 'channels.tagNumber': tag }] of MongoDB also matches through a
      [channels] field that is an embedded document and through a
      [tagNumber] that is an array; the statements that depend on that
      query are about stores where [channels] is an array
      ([channelsAreArrays]) and every truthy [tagNumber] is a string
      ([tagsAreStrings]).
    - The MongoDB collections are fields of the record [Db].  Every driver
      call is a suspension point that may reject; the list [faults] of
      the record says, call after call, which ones do.
    - An [async] function is a state transformer with an outcome, either
      a value or a thrown exception. *)

From Stdlib Require Import ZArith Ascii String List Lia.
From stdpp Require Import gmap strings list fin_maps sorting.

Local Open Scope Z_scope.

(** ** JavaScript string and number primitives *)

Module Js.

(** White space as [String.prototype.trim] and [parseInt] see it, among
    the code units 0..255: TAB, LF, VT, FF, CR, SP and NBSP. *)
Definition isWhiteSpace (c : ascii) : bool :=
  let n := nat_of_ascii c in
  ((9 <=? n) && (n <=? 13) || (n =? 32) || (n =? 160))%nat.

Fixpoint trimStart (s : string) : string :=
  match s with
  | EmptyString => EmptyString
  | String c r => if isWhiteSpace c then trimStart r else s
  end.

Fixpoint trimEnd (s : string) : string :=
  match s with
  | EmptyString => EmptyString
  | String c r =>
      match trimEnd r with
      | EmptyString => if isWhiteSpace c then EmptyString else String c EmptyString
      | r' => String c r'
      end
  end.

(** [s.trim()] *)
Definition trim (s : string) : string := trimEnd (trimStart s).

(** [s.substring(0, n)] *)
Definition substringTo (n : nat) (s : string) : string := substring 0 n s.

(** [s.substring(n)] *)
Fixpoint substringFrom (n : nat) (s : string) : string :=
  match n, s with
  | O, _ => s
  | S n', String _ r => substringFrom n' r
  | S _, EmptyString => EmptyString
  end.

Definition isDecimalDigit (c : ascii) : bool :=
  let n := Z.of_nat (nat_of_ascii c) in (48 <=? n) && (n <=? 57).

(** The value of a digit in the given radix (10 or 16), if it is one. *)
Definition digitValue (radix : Z) (c : ascii) : option Z :=
  let n := Z.of_nat (nat_of_ascii c) in
  if isDecimalDigit c then Some (n - 48)
  else if (radix =? 16) && (97 <=? n) && (n <=? 102) then Some (n - 87)
  else if (radix =? 16) && (65 <=? n) && (n <=? 70) then Some (n - 55)
  else None.

(** The longest prefix of radix digits, read as a number; [acc] is
    [None] until a digit has been seen. *)
Fixpoint scanDigits (radix : Z) (s : string) (acc : option Z) : option Z :=
  match s with
  | EmptyString => acc
  | String c r =>
      match digitValue radix c with
      | Some d => scanDigits radix r (Some (radix * default 0 acc + d))
      | None => acc
      end
  end.

(** The string starts with [0x] or [0X]. *)
Definition hasHexPrefix (s : string) : bool :=
  match s with
  | String c (String x _) => Ascii.eqb c "0" && (Ascii.eqb x "x" || Ascii.eqb x "X")
  | _ => false
  end.

(** [parseInt(s)] with no radix argument: leading white space is
    skipped, a sign is read, a [0x] or [0X] prefix switches to radix
    16, then the longest run of digits is read; with no digit the
    result is [NaN], here [None].  The result is the integer that the
    digits denote; JavaScript returns the double nearest to it, which is
    that integer when it is a safe integer. *)
Definition parseInt (s : string) : option Z :=
  let s1 := trimStart s in
  let '(negative, s2) :=
    match s1 with
    | String c r =>
        if Ascii.eqb c "-" then (true, r)
        else if Ascii.eqb c "+" then (false, r)
        else (false, s1)
    | EmptyString => (false, s1)
    end in
  let '(radix, s3) :=
    if hasHexPrefix s2 then (16, substringFrom 2 s2) else (10, s2) in
  match scanDigits radix s3 None with
  | Some v => Some (if negative : bool then - v else v)
  | None => None
  end.

Definition digitChar (d : Z) : ascii := ascii_of_nat (48 + Z.to_nat d).

(** The decimal digits of a non-negative integer, most significant
    first, in front of [acc]. *)
Fixpoint decimalDigits (fuel : nat) (n : Z) (acc : string) : string :=
  let acc' := String (digitChar (n mod 10)) acc in
  match fuel with
  | O => acc'
  | S f => if n / 10 =? 0 then acc' else decimalDigits f (n / 10) acc'
  end.

(** [String(n)] for an integer [n]: its decimal notation, which is what
    JavaScript yields for every integer-valued number below 10^21, the
    safe integers among them. *)
Definition toString (n : Z) : string :=
  if n <? 0 then String "-" (decimalDigits (Z.to_nat (Z.log2 (- n))) (- n) EmptyString)
  else decimalDigits (Z.to_nat (Z.log2 n)) n EmptyString.

Fixpoint repeatChar (k : nat) (c : ascii) : string :=
  match k with
  | O => EmptyString
  | S k' => String c (repeatChar k' c)
  end.

(** [s.padStart(target, c)] for a one-character filler. *)
Definition padStart (target : nat) (c : ascii) (s : string) : string :=
  repeatChar (target - String.length s) c +:+ s.

(** [Math.max(n, ...ns)] *)
Definition Math_max (n : Z) (ns : list Z) : Z := fold_left Z.max ns n.

End Js.

(** ** Documents and collections *)

(** The value of [channel.tagNumber].  [TagAbsent] is [undefined] or
    [null]; [TagOther truthy] is any value that is not a string (a number,
    a boolean, an object), with its truthiness. *)
Inductive TagValue :=
| TagAbsent
| TagStr (s : string)
| TagOther (truthy : bool).

Record Channel := mkChannel { tagNumber : TagValue }.

(** [ObjectId]s are kept abstract: a number stands for the twelve bytes
    of the identifier. *)
Definition ObjectId := N.

(** The string [req.params.campaignId] of an update, by what the three
    operations of the handler make of it: [ObjectId.isValid(campaignId)],
    [new ObjectId(campaignId)] and the comparison with
    [campaign._id.toString()].  [ParamCanonical oid] is the string that
    [oid.toString()] yields, 24 hexadecimal digits in lower case;
    [ParamVariant oid] is any other string that [new ObjectId] reads as
    [oid], such as the same digits in upper case; [ParamInvalid] is a
    string that [ObjectId.isValid] refuses. *)
Inductive IdParam :=
| ParamInvalid
| ParamCanonical (oid : ObjectId)
| ParamVariant (oid : ObjectId).

(** [new ObjectId(campaignId)], where [ObjectId.isValid(campaignId)]. *)
Definition ObjectId_of (campaignId : IdParam) : option ObjectId :=
  match campaignId with
  | ParamInvalid => None
  | ParamCanonical oid | ParamVariant oid => Some oid
  end.

(** [oid.toString() === campaignId] *)
Definition toString_is (oid : ObjectId) (campaignId : IdParam) : bool :=
  match campaignId with
  | ParamCanonical oid' => N.eqb oid oid'
  | ParamInvalid | ParamVariant _ => false
  end.

(** A campaign document.  [channels] is [None] when the field is missing
    or is not an array (an embedded document, for one).  The other fields
    of a campaign are not read by the tag engine and are left out. *)
Record Campaign := mkCampaign {
  _id : ObjectId;
  campaignId : option string;
  channels : option (list Channel)
}.

(** The parsed [campaignData] of a create or update request. *)
Record CampaignData := mkCampaignData {
  data_campaignId : option string;
  data_channels : option (list Channel)
}.

(** The database [db]: collection [campaigns]; collection [tagCounters]
    (unique index on [prefix], so a finite map from prefix to
    [lastNumber]); the document [campaignId] of collection [counters];
    and the outcome of the driver calls to come ([true]: the call
    rejects; past the end of the list every call succeeds). *)
Record Db := mkDb {
  campaigns : list Campaign;
  tagCounters : gmap string Z;
  campaignSeq : N;
  faults : list bool
}.

Definition setCampaigns (cs : list Campaign) (db : Db) : Db :=
  mkDb cs (tagCounters db) (campaignSeq db) (faults db).
Definition setTagCounters (m : gmap string Z) (db : Db) : Db :=
  mkDb (campaigns db) m (campaignSeq db) (faults db).
Definition setCampaignSeq (n : N) (db : Db) : Db :=
  mkDb (campaigns db) (tagCounters db) n (faults db).
Definition setFaults (fs : list bool) (db : Db) : Db :=
  mkDb (campaigns db) (tagCounters db) (campaignSeq db) fs.

(** ** Asynchronous computations *)

Inductive Outcome (A : Type) :=
| Ok (a : A)
| Thrown.
Arguments Ok {A} a.
Arguments Thrown {A}.

Definition Async (A : Type) : Type := Db -> Outcome A * Db.

Definition ret {A} (a : A) : Async A := fun db => (Ok a, db).

Definition throw {A} : Async A := fun db => (Thrown, db).

Definition bind {A B} (m : Async A) (k : A -> Async B) : Async B :=
  fun db =>
    match m db with
    | (Ok a, db') => k a db'
    | (Thrown, db') => (Thrown, db')
    end.

(** [try { m } catch (err) { h }] *)
Definition tryCatch {A} (m : Async A) (h : Async A) : Async A :=
  fun db =>
    match m db with
    | (Ok a, db') => (Ok a, db')
    | (Thrown, db') => h db'
    end.

Notation "'let*' x ':=' m 'in' k" := (bind m (fun x => k))
  (at level 10, x name, m at level 100, k at level 200).
Notation "'do' m 'then' k" := (bind m (fun _ => k))
  (at level 10, m at level 100, k at level 200).

Definition liftOutcome {A} (o : Outcome A) : Async A := fun db => (o, db).

(** One call to the driver: it succeeds or rejects as [faults] says. *)
Definition storeCall : Async unit :=
  fun db =>
    match faults db with
    | [] => (Ok tt, db)
    | rejects :: fs => (if rejects : bool then Thrown else Ok tt, setFaults fs db)
    end.

(** ** Driver calls used by the tag engine *)

Module Store.

(** [campaigns.find({}).toArray()] *)
Definition campaigns_find : Async (list Campaign) :=
  do storeCall then
  (fun db => (Ok (campaigns db), db)).

(** A channel array has an element whose [tagNumber] equals [tag]: the
    documents that the query [{ 'channels.tagNumber': tag }] matches, in
    a store where [channels] is an array, if it is there, and no
    [tagNumber] is an array. *)
Definition carriesTag (tag : string) (c : Campaign) : bool :=
  match channels c with
  | Some chs =>
      existsb (fun ch => match tagNumber ch with
                         | TagStr s => String.eqb s tag
                         | _ => false
                         end) chs
  | None => false
  end.

(** [campaigns.findOne({ 'channels.tagNumber': tag })] *)
Definition campaigns_findOne_tag (tag : string) : Async (option Campaign) :=
  do storeCall then
  (fun db => (Ok (List.find (carriesTag tag) (campaigns db)), db)).

(** [campaigns.findOne({ _id: oid })] *)
Definition campaigns_findOne_id (oid : ObjectId) : Async (option Campaign) :=
  do storeCall then
  (fun db => (Ok (List.find (fun c => N.eqb (_id c) oid) (campaigns db)), db)).

Definition hasCampaignId (cid : string) (c : Campaign) : bool :=
  match campaignId c with
  | Some x => String.eqb x cid
  | None => false
  end.

(** [campaigns.findOne({ campaignId: cid })] *)
Definition campaigns_findOne_campaignId (cid : string) : Async (option Campaign) :=
  do storeCall then
  (fun db => (Ok (List.find (hasCampaignId cid) (campaigns db)), db)).

(** [{ $set: campaignData }] on one document: the fields present in
    [campaignData] replace those of the document. *)
Definition applySet (d : CampaignData) (c : Campaign) : Campaign :=
  mkCampaign (_id c)
    (match data_campaignId d with Some x => Some x | None => campaignId c end)
    (match data_channels d with Some chs => Some chs | None => channels c end).

(** Update the first document that satisfies [p]; tell whether there
    was one. *)
Fixpoint updateFirst (p : Campaign -> bool) (f : Campaign -> Campaign)
    (cs : list Campaign) : list Campaign * bool :=
  match cs with
  | [] => ([], false)
  | c :: r =>
      if p c then (f c :: r, true)
      else let '(r', hit) := updateFirst p f r in (c :: r', hit)
  end.

(** An identifier that no document of the collection carries. *)
Definition freshObjectId (cs : list Campaign) : ObjectId :=
  N.succ (fold_right N.max 0%N (map _id cs)).

(** [campaigns.updateOne({ campaignId: cid }, { $set: d }, { upsert: true })] *)
Definition campaigns_updateOne_campaignId_upsert (cid : string) (d : CampaignData)
  : Async unit :=
  do storeCall then
  (fun db =>
     let '(cs, hit) := updateFirst (hasCampaignId cid) (applySet d) (campaigns db) in
     if hit : bool then (Ok tt, setCampaigns cs db)
     else
       let doc := mkCampaign (freshObjectId (campaigns db)) (Some cid) (data_channels d) in
       (Ok tt, setCampaigns (campaigns db ++ [doc]) db)).

(** The unique index on [campaignId]: the update would give the
    document the human-readable identifier of another document. *)
Definition campaignIdTaken (oid : ObjectId) (d : CampaignData) (cs : list Campaign) : bool :=
  match data_campaignId d with
  | Some cid => existsb (fun c => negb (N.eqb (_id c) oid) && hasCampaignId cid c) cs
  | None => false
  end.

(** [campaigns.updateOne({ _id: oid }, { $set: d }, { upsert: false })];
    the result is [matchedCount]. *)
Definition campaigns_updateOne_id (oid : ObjectId) (d : CampaignData) : Async nat :=
  do storeCall then
  (fun db =>
     if campaignIdTaken oid d (campaigns db) then (Thrown, db)
     else
       let '(cs, hit) := updateFirst (fun c => N.eqb (_id c) oid) (applySet d) (campaigns db) in
       if hit : bool then (Ok 1%nat, setCampaigns cs db) else (Ok 0%nat, db)).

Fixpoint removeFirst (p : Campaign -> bool) (cs : list Campaign) : list Campaign * bool :=
  match cs with
  | [] => ([], false)
  | c :: r =>
      if p c then (r, true)
      else let '(r', hit) := removeFirst p r in (c :: r', hit)
  end.

(** [campaigns.deleteOne({ _id: oid })]; the result is [deletedCount]. *)
Definition campaigns_deleteOne (oid : ObjectId) : Async nat :=
  do storeCall then
  (fun db =>
     let '(cs, hit) := removeFirst (fun c => N.eqb (_id c) oid) (campaigns db) in
     if hit : bool then (Ok 1%nat, setCampaigns cs db) else (Ok 0%nat, db)).

(** [tagCounters.findOne({ prefix })]; the result is the [lastNumber]
    of the counter, if there is one. *)
Definition tagCounters_findOne (prefix : string) : Async (option Z) :=
  do storeCall then
  (fun db => (Ok (tagCounters db !! prefix), db)).

(** [tagCounters.insertOne({ prefix, lastNumber })] *)
Definition tagCounters_insertOne (prefix : string) (lastNumber : Z) : Async unit :=
  do storeCall then
  (fun db =>
     match tagCounters db !! prefix with
     | Some _ => (Thrown, db)
     | None => (Ok tt, setTagCounters (<[prefix := lastNumber]> (tagCounters db)) db)
     end).

(** [tagCounters.updateOne({ prefix }, { $set: { lastNumber } }, { upsert: true })] *)
Definition tagCounters_updateOne_upsert (prefix : string) (lastNumber : Z) : Async unit :=
  do storeCall then
  (fun db => (Ok tt, setTagCounters (<[prefix := lastNumber]> (tagCounters db)) db)).

(** [tagCounters.find({}).toArray()] *)
Definition tagCounters_find : Async (list (string * Z)) :=
  do storeCall then
  (fun db => (Ok (map_to_list (tagCounters db)), db)).

(** [counters.findOneAndUpdate({ _id: 'campaignId' }, { $inc: { lastNumber: 1 } },
    { upsert: true, returnDocument: 'after' })]; the result is the new
    [lastNumber]. *)
Definition counters_findOneAndUpdate_inc : Async N :=
  do storeCall then
  (fun db => let n := N.succ (campaignSeq db) in (Ok n, setCampaignSeq n db)).

End Store.

(** ** [syncTagCounters] *)

(** The object [tagNumbersByPrefix]: its keys in insertion order, each
    with the array of numbers pushed under it. *)
Definition NumbersByPrefix := list (string * list Z).

(** [if (!obj[prefix]) obj[prefix] = []; obj[prefix].push(n)] *)
Fixpoint pushNumber (prefix : string) (n : Z) (obj : NumbersByPrefix) : NumbersByPrefix :=
  match obj with
  | [] => [(prefix, [n])]
  | (k, ns) :: r =>
      if String.eqb k prefix then (k, ns ++ [n]) :: r
      else (k, ns) :: pushNumber prefix n r
  end.

(** What the body of the inner [forEach] does with a string
    [channel.tagNumber] that is truthy and not blank: [None] when the tag
    is skipped with a warning, else the prefix and the number pushed. *)
Definition splitTag (raw : string) : option (string * Z) :=
  let tagNumber := Js.trim raw in
  if (String.length tagNumber <? 3)%nat then None
  else
    let prefix := Js.substringTo 2 tagNumber in
    match Js.parseInt (Js.substringFrom 2 tagNumber) with
    | None => None
    | Some numberPart => if numberPart <? 0 then None else Some (prefix, numberPart)
    end.

(** The callback of [campaign.channels.forEach].  A truthy [tagNumber]
    that is not a string has no [trim] method: the call throws. *)
Definition recordChannel (obj : NumbersByPrefix) (channel : Channel) : Outcome NumbersByPrefix :=
  match tagNumber channel with
  | TagAbsent => Ok obj
  | TagOther truthy => if truthy then Thrown else Ok obj
  | TagStr s =>
      if String.eqb s "" then Ok obj
      else if String.eqb (Js.trim s) "" then Ok obj
      else
        match splitTag s with
        | Some (prefix, numberPart) => Ok (pushNumber prefix numberPart obj)
        | None => Ok obj
        end
  end.

(** [array.forEach] with a callback that updates [obj] and may throw. *)
Fixpoint forEach {A S : Type} (f : S -> A -> Outcome S) (l : list A) (obj : S) : Outcome S :=
  match l with
  | [] => Ok obj
  | x :: r =>
      match f obj x with
      | Ok obj' => forEach f r obj'
      | Thrown => Thrown
      end
  end.

(** The callback of [allCampaigns.forEach]. *)
Definition recordCampaign (obj : NumbersByPrefix) (campaign : Campaign) : Outcome NumbersByPrefix :=
  match channels campaign with
  | Some chs => forEach recordChannel chs obj
  | None => Ok obj
  end.

Definition collectTagNumbers (allCampaigns : list Campaign) : Outcome NumbersByPrefix :=
  forEach recordCampaign allCampaigns [].

(** A property key that is an array index (a canonical numeric string
    below 2^32 - 1), with its value. *)
Definition arrayIndex (k : string) : option Z :=
  match Js.scanDigits 10 k None with
  | Some v => if String.eqb (Js.toString v) k && (v <? 4294967295) then Some v else None
  | None => None
  end.

Definition indexLe (a b : Z * (string * list Z)) : Prop := a.1 <= b.1.

#[global] Instance indexLe_dec : forall a b, Decision (indexLe a b).
Proof. intros a b. unfold indexLe. apply _. Defined.

(** [Object.entries(obj)]: array-index keys first, in ascending numeric
    order, then the other keys in insertion order. *)
Definition Object_entries (obj : NumbersByPrefix) : list (string * list Z) :=
  map snd (merge_sort indexLe (omap (fun e => (fun i => (i, e)) <$> arrayIndex e.1) obj))
  ++ filter (fun e => arrayIndex e.1 = None) obj.

(** The loop [for (const [prefix, numbers] of Object.entries(...))]. *)
Fixpoint updateCounters (entries : list (string * list Z)) : Async unit :=
  match entries with
  | [] => ret tt
  | (prefix, numbers) :: rest =>
      do (if (0 <? length numbers)%nat then
            match List.filter (fun n => 0 <=? n) numbers with
            | n :: ns => Store.tagCounters_updateOne_upsert prefix (Js.Math_max n ns)
            | [] => ret tt
            end
          else ret tt) then
      updateCounters rest
  end.

(** [async function syncTagCounters()]: every exception is caught and
    logged; the function itself never throws. *)
Definition syncTagCounters : Async unit :=
  tryCatch
    (let* allCampaigns := Store.campaigns_find in
     let* tagNumbersByPrefix := liftOutcome (collectTagNumbers allCampaigns) in
     do updateCounters (Object_entries tagNumbersByPrefix) then
     let* existingCounters := Store.tagCounters_find in
     ret tt)
    (ret tt).

(** ** HTTP handlers *)

Inductive Response :=
| TagsSynced                                      (* 200 'Tag counters synced successfully' *)
| TagGenerated (tag prefix : string) (counter : Z) (* 200 { tagNumber, prefix, counter } *)
| SelectChannelType                               (* 400 'Please select a channel type' *)
| UnknownChannelType (channelType : string)       (* 400 'Unknown channel type: ...' *)
| DuplicateInCampaign (tags : list string)        (* 400 'Duplicate reference codes found within the campaign: ...' *)
| DuplicateAcrossCampaigns (tags : list string)   (* 400 'Reference code(s) already exist: ...' *)
| CampaignSaved (campaignId : string)             (* 200 'Campaign saved successfully' *)
| CampaignUpdated (campaignId : IdParam)          (* 200 { message: 'Campaign updated successfully', campaignId } *)
| CampaignDeleted                                 (* 200 'Campaign deleted successfully' *)
| CampaignNotFound                                (* 404 'Campaign not found' *)
| InvalidCampaignIdFormat                         (* 400 'Invalid campaign ID format' *)
| ServerError.                                    (* 500 'Server error' *)

Definition status (r : Response) : Z :=
  match r with
  | TagsSynced | TagGenerated _ _ _ | CampaignSaved _ | CampaignUpdated _ | CampaignDeleted => 200
  | SelectChannelType | UnknownChannelType _ | DuplicateInCampaign _
  | DuplicateAcrossCampaigns _ | InvalidCampaignIdFormat => 400
  | CampaignNotFound => 404
  | ServerError => 500
  end.

(** [try { ... } catch (err) { res.status(500).json({ error: 'Server error' }) }];
    the handlers differ in what they log, not in the status. *)
Definition respond (m : Async Response) (db : Db) : Response * Db :=
  match m db with
  | (Ok r, db') => (r, db')
  | (Thrown, db') => (ServerError, db')
  end.

(** [app.post('/api/tags/sync')] *)
Definition post_tags_sync : Db -> Response * Db :=
  respond (do syncTagCounters then ret TagsSynced).

(** The chain of comparisons of [app.post('/api/tags/generate')]. *)
Definition prefixTable : list (string * string) :=
  [ ("Instagram", "IG"); ("Facebook", "FB"); ("TikTok", "TT"); ("YouTube", "YT");
    ("Snapchat", "SC"); ("Google", "GG"); ("WhatsApp Group", "WA");
    ("Gold councils", "GT"); ("Residential Community", "RC");
    ("Lang/Cultural group", "LC"); ("Religious group", "RG");
    ("Bluecollar Camp", "BC"); ("Neighbourhood Community", "NC");
    ("Social organisations", "SO"); ("Event", "EV"); ("Exhibition", "EX");
    ("Channel Partners", "CP"); ("Corporate Partners", "CO"); ("Hotel", "HT");
    ("Tour Driver", "TD"); ("Tours&Travel Agency", "TC");
    ("New collection Launch", "PL"); ("Website", "WS"); ("Email", "EM");
    ("SMS", "SMS"); ("Print Media", "PM"); ("Radio", "RD"); ("Television", "TV");
    ("Referral", "RF"); ("Storefront", "SF"); ("Outdoor Ads", "OA"); ("Others", "OT") ].

Fixpoint lookupPrefix (table : list (string * string)) (trimmedChannelType : string)
  : option string :=
  match table with
  | [] => None
  | (name, prefix) :: r =>
      if String.eqb trimmedChannelType name then Some prefix
      else lookupPrefix r trimmedChannelType
  end.

Definition prefixFor (trimmedChannelType : string) : option string :=
  lookupPrefix prefixTable trimmedChannelType.

(** [`${prefix}${String(n).padStart(5, '0')}`] *)
Definition formatTag (prefix : string) (n : Z) : string :=
  prefix +:+ Js.padStart 5 "0" (Js.toString n).

(** [app.post('/api/tags/generate')] for a request whose [channelType]
    is a string, or is falsy ([None]: the body has no such field, or has
    [null], [0] or [false] there).  [lastNumber + 1] is the successor, as
    it is in JavaScript while the result is at most 2^53. *)
Definition post_tags_generate (channelType : option string) : Db -> Response * Db :=
  let trimmedChannelType :=
    match channelType with
    | Some s => if String.eqb s "" then "" else Js.trim s
    | None => ""
    end in
  if String.eqb trimmedChannelType "" then fun db => (SelectChannelType, db)
  else
    respond
      match prefixFor trimmedChannelType with
      | None => ret (UnknownChannelType trimmedChannelType)
      | Some prefix =>
          let* counter := Store.tagCounters_findOne prefix in
          let* lastNumber :=
            match counter with
            | Some n => ret n
            | None => do Store.tagCounters_insertOne prefix 0 then ret 0
            end in
          let nextNumber := lastNumber + 1 in
          let newTagNumber := formatTag prefix nextNumber in
          let* existingTag := Store.campaigns_findOne_tag newTagNumber in
          match existingTag with
          | Some _ =>
              let incrementedNumber := nextNumber + 1 in
              let incrementedTagNumber := formatTag prefix incrementedNumber in
              do Store.tagCounters_updateOne_upsert prefix incrementedNumber then
              ret (TagGenerated incrementedTagNumber prefix incrementedNumber)
          | None =>
              do Store.tagCounters_updateOne_upsert prefix nextNumber then
              ret (TagGenerated newTagNumber prefix nextNumber)
          end
      end.

(** *** Uniqueness validation of a campaign write *)

(** [campaignData.channels.map(channel => channel.tagNumber)
      .filter(tag => tag !== null && tag !== undefined
                     && typeof tag === 'string' && tag.trim() !== '')
      .map(tag => tag.trim())] *)
Definition submittedTagNumbers (chs : list Channel) : list string :=
  map Js.trim
    (omap (fun tag => match tag with
                      | TagStr s => if String.eqb (Js.trim s) "" then None else Some s
                      | _ => None
                      end)
          (map tagNumber chs)).

Definition includes (l : list string) (x : string) : bool :=
  existsb (String.eqb x) l.

(** The elements of [new Set(l)], in insertion order. *)
Fixpoint Set_of (l : list string) : list string :=
  match l with
  | [] => []
  | x :: r => x :: List.filter (fun y => negb (String.eqb y x)) (Set_of r)
  end.

(** [l.indexOf(x)], counted from [from]; [-1] when [x] is absent. *)
Fixpoint indexOfFrom (from : Z) (x : string) (l : list string) : Z :=
  match l with
  | [] => -1
  | y :: r => if String.eqb y x then from else indexOfFrom (from + 1) x r
  end.

Definition indexOf (x : string) (l : list string) : Z := indexOfFrom 0 x l.

Fixpoint filterIndexed {A} (p : A -> Z -> bool) (from : Z) (l : list A) : list A :=
  match l with
  | [] => []
  | x :: r =>
      if p x from then x :: filterIndexed p (from + 1) r
      else filterIndexed p (from + 1) r
  end.

(** [tagNumbers.filter((tag, index) => tagNumbers.indexOf(tag) !== index)] *)
Definition duplicatesWithin (tagNumbers : list string) : list string :=
  filterIndexed (fun tag index => negb (indexOf tag tagNumbers =? index)) 0 tagNumbers.

(** The values added to the set [existingTags] for one campaign:
    [if (channel.tagNumber) existingTags.add(channel.tagNumber)]. *)
Definition truthyTags (campaign : Campaign) : list TagValue :=
  match channels campaign with
  | Some chs =>
      List.filter (fun tag => match tag with
                              | TagAbsent => false
                              | TagStr s => negb (String.eqb s "")
                              | TagOther truthy => truthy
                              end)
                  (map tagNumber chs)
  | None => []
  end.

(** The set [existingTags] after [existingCampaigns.forEach]; [skip]
    tells which campaigns the loop passes over. *)
Definition existingTagsOf (skip : Campaign -> bool) (existingCampaigns : list Campaign)
  : list TagValue :=
  flat_map truthyTags (List.filter (fun c => negb (skip c)) existingCampaigns).

(** [existingTags.has(tag)] for a string [tag]. *)
Definition Set_has (existingTags : list TagValue) (tag : string) : bool :=
  existsb (fun v => match v with
                    | TagStr s => String.eqb s tag
                    | _ => false
                    end) existingTags.

(** The block [// Validate tag numbers for uniqueness], which the two
    handlers share but for the campaigns passed over: [Some r] when the
    handler returns the response [r], [None] when it goes on. *)
Definition validateTagNumbers (skip : Campaign -> bool) (d : CampaignData)
  : Async (option Response) :=
  match data_channels d with
  | Some chs =>
      let tagNumbers := submittedTagNumbers chs in
      if (0 <? length tagNumbers)%nat then
        let uniqueTags := Set_of tagNumbers in
        if negb (length uniqueTags =? length tagNumbers)%nat then
          ret (Some (DuplicateInCampaign (Set_of (duplicatesWithin tagNumbers))))
        else
          let* existingCampaigns := Store.campaigns_find in
          let existingTags := existingTagsOf skip existingCampaigns in
          let duplicateTags := List.filter (Set_has existingTags) tagNumbers in
          if (0 <? length duplicateTags)%nat then
            ret (Some (DuplicateAcrossCampaigns duplicateTags))
          else ret None
      else ret None
  | None => ret None
  end.

(** [async function getNextCampaignId()]; the branches that read the new
    value from [result.value], from [result] or from a second look-up
    all yield the incremented [lastNumber]. *)
Definition getNextCampaignId : Async string :=
  tryCatch
    (let* nextId := Store.counters_findOneAndUpdate_inc in
     ret ("MK_" +:+ Js.padStart 6 "0" (Js.toString (Z.of_N nextId))))
    throw.

(** [app.post('/api/campaigns')], after the request has been parsed and
    the images stored; [post_campaigns_request] below has the uploads
    too. *)
Definition post_campaigns (campaignData : CampaignData) : Db -> Response * Db :=
  respond
    (let* rejected := validateTagNumbers (fun _ => false) campaignData in
     match rejected with
     | Some response => ret response
     | None =>
         let* cid :=
           match data_campaignId campaignData with
           | Some x => if String.eqb x "" then getNextCampaignId else ret x
           | None => getNextCampaignId
           end in
         let campaignData' := mkCampaignData (Some cid) (data_channels campaignData) in
         do Store.campaigns_updateOne_campaignId_upsert cid campaignData' then
         let* savedCampaign := Store.campaigns_findOne_campaignId cid in
         do syncTagCounters then
         ret (CampaignSaved cid)
     end).

(** [app.put('/api/campaigns/:campaignId')], after the request has been
    parsed.  The campaign is looked up and written by [objectId]; the
    cross-campaign check passes over the campaigns whose
    [_id.toString()] is the URL parameter itself.  The handling of the
    images, between the look-up of the campaign and the validation, is
    left out: it reads and writes the image store only. *)
Definition put_campaigns (campaignId : IdParam) (campaignData : CampaignData)
  : Db -> Response * Db :=
  match ObjectId_of campaignId with
  | None => fun db => (InvalidCampaignIdFormat, db)
  | Some objectId =>
      respond
        (let* existingCampaign := Store.campaigns_findOne_id objectId in
         match existingCampaign with
         | None => ret CampaignNotFound
         | Some _ =>
             let* rejected :=
               validateTagNumbers (fun campaign => toString_is (_id campaign) campaignId)
                                  campaignData in
             match rejected with
             | Some response => ret response
             | None =>
                 let* matchedCount := Store.campaigns_updateOne_id objectId campaignData in
                 if (matchedCount =? 0)%nat then ret CampaignNotFound
                 else
                   let* updatedCampaign := Store.campaigns_findOne_id objectId in
                   do syncTagCounters then
                   ret (CampaignUpdated campaignId)
             end
         end)
  end.

(** [app.delete('/api/campaigns/:campaignId')], the images apart. *)
Definition delete_campaigns (campaignId : option ObjectId) : Db -> Response * Db :=
  match campaignId with
  | None => fun db => (InvalidCampaignIdFormat, db)
  | Some objectId =>
      respond
        (let* campaign := Store.campaigns_findOne_id objectId in
         match campaign with
         | None => ret CampaignNotFound
         | Some _ =>
             let* deletedCount := Store.campaigns_deleteOne objectId in
             if (deletedCount =? 1)%nat then ret CampaignDeleted else ret CampaignNotFound
         end)
  end.

(** ** Vocabulary of the statements *)

Fixpoint allChars (p : ascii -> bool) (s : string) : bool :=
  match s with
  | EmptyString => true
  | String c r => p c && allChars p r
  end.

(** The leading decimal digits of a string. *)
Fixpoint leadingDigits (s : string) : string :=
  match s with
  | EmptyString => EmptyString
  | String c r => if Js.isDecimalDigit c then String c (leadingDigits r) else EmptyString
  end.

(** The number that a string of decimal digits denotes, after [a]. *)
Fixpoint decimalValue (s : string) (a : Z) : Z :=
  match s with
  | EmptyString => a
  | String c r => decimalValue r (10 * a + (Z.of_nat (nat_of_ascii c) - 48))
  end.

(** Some channel of some campaign of [cs] carries exactly the tag [tag]. *)
Definition tagPersisted (tag : string) (cs : list Campaign) : Prop :=
  exists c chs ch,
    c ∈ cs /\ channels c = Some chs /\ ch ∈ chs /\ tagNumber ch = TagStr tag.

(** The same, in a campaign other than the one identified by [oid]. *)
Definition tagPersistedOutside (oid : ObjectId) (tag : string) (cs : list Campaign) : Prop :=
  exists c chs ch,
    c ∈ cs /\ _id c <> oid /\ channels c = Some chs /\ ch ∈ chs
    /\ tagNumber ch = TagStr tag.


(** The counter that the loop of [syncTagCounters] writes for one entry
    of [tagNumbersByPrefix], if it writes one. *)
Definition entryWrite (e : string * list Z) : option (string * Z) :=
  match List.filter (fun n => 0 <=? n) e.2 with
  | n :: ns => Some (e.1, Js.Math_max n ns)
  | [] => None
  end.

(** The counters after the loop of [syncTagCounters] has run to its end
    over [entries], when no driver call rejects. *)
Definition applyEntries (entries : list (string * list Z)) (m : gmap string Z)
  : gmap string Z :=
  fold_left (fun m w => <[w.1 := w.2]> m) (omap entryWrite entries) m.

(** The collections and the identifier sequence are the same in both
    states. *)
Definition sameData (db db' : Db) : Prop :=
  campaigns db' = campaigns db /\ tagCounters db' = tagCounters db
  /\ campaignSeq db' = campaignSeq db.


(** The two parts into which the reconciler cuts a tag. *)
Definition tagPrefix (raw : string) : string := Js.substringTo 2 (Js.trim raw).
Definition tagSuffix (raw : string) : string := Js.substringFrom 2 (Js.trim raw).

(** A suffix that begins with one or more decimal digits, followed by
    something that is not a digit. *)
Definition digitsThenOther (suffix : string) : Prop :=
  leadingDigits suffix <> EmptyString /\ leadingDigits suffix <> suffix.

(** The tag is not skipped: it is split into its two-character prefix
    and the number that its leading digits denote. *)
Definition countedAsLeadingDigits (raw : string) : Prop :=
  splitTag raw = Some (tagPrefix raw, decimalValue (leadingDigits (tagSuffix raw)) 0).

(** The response is one of the two rejections of the uniqueness
    validation. *)
Definition isDuplicateRejection (r : Response) : Prop :=
  match r with
  | DuplicateInCampaign _ | DuplicateAcrossCampaigns _ => True
  | _ => False
  end.

(** ** Example stores and requests *)

Definition db_empty : Db := mkDb [] ∅ 0 [].

Definition channel (tag : string) : Channel := mkChannel (TagStr tag).

(** A store where the counter of IG stands at 3 while campaigns already
    hold IG00004 and IG00005. *)
Definition db_counter_behind : Db :=
  mkDb [ mkCampaign 1%N (Some "MK_000001") (Some [channel "IG00004"; channel "IG00005"]) ]
       {[ "IG" := 3 ]} 1 [].

(** The empty store after five tags have been requested for Instagram. *)
Definition db_five_allocated : Db :=
  Nat.iter 5 (fun db => (post_tags_generate (Some "Instagram") db).2) db_empty.

(** A store whose IG counter stands at 5 while the only campaign holds
    IG00003. *)
Definition db_counter_ahead : Db :=
  mkDb [ mkCampaign 1%N (Some "MK_000001") (Some [channel "IG00003"]) ]
       {[ "IG" := 5 ]} 1 [].


(** A store whose only tag has letters after its digits. *)
Definition db_digits_then_letters : Db :=
  mkDb [ mkCampaign 1%N (Some "MK_000001") (Some [channel "IG12ab"]) ]
       {[ "IG" := 3 ]} 1 [].

(** A store whose only tag was allocated for the channel type SMS. *)
Definition db_sms : Db :=
  mkDb [ mkCampaign 1%N (Some "MK_000001") (Some [channel "SMS00007"]) ]
       {[ "SMS" := 2 ]} 1 [].

(** A campaign saved with a trailing blank after its tag. *)
Definition db_tag_with_blank : Db :=
  (post_campaigns (mkCampaignData None (Some [channel "IG00001 "])) db_empty).2.

(** The same campaign saved with the bare tag. *)
Definition db_tag_bare : Db :=
  (post_campaigns (mkCampaignData None (Some [channel "IG00001"])) db_empty).2.

(** Campaign 1 holds FB00010 and campaign 2 holds IG00001. *)
Definition db_two_campaigns : Db :=
  mkDb [ mkCampaign 1%N (Some "MK_000001") (Some [channel "FB00010"]);
         mkCampaign 2%N (Some "MK_000002") (Some [channel "IG00001"]) ]
       {[ "FB" := 10; "IG" := 1 ]} 2 [].

(** ** Further handlers of the tag engine *)

(** The value of [req.body.channelType]: falsy and not a string
    ([undefined], [null], [0], [false]), a string, or a truthy value that
    is not a string (a number, [true], an array, an object). *)
Inductive BodyValue :=
| BodyFalsy
| BodyString (s : string)
| BodyOther.

(** [app.post('/api/tags/generate')] for any value of
    [req.body.channelType].  The handler calls [channelType.trim()] on
    every truthy [channelType], before its [try]: a truthy value that is
    not a string has no such method, the call throws and the handler
    sends no answer. *)
Definition post_tags_generate_request (channelType : BodyValue)
  : Db -> Outcome Response * Db :=
  match channelType with
  | BodyFalsy => fun db => let '(r, db') := post_tags_generate None db in (Ok r, db')
  | BodyString s => fun db => let '(r, db') := post_tags_generate (Some s) db in (Ok r, db')
  | BodyOther => throw
  end.



(** The answers of [app.get('/api/campaigns/tag/:tagNumber')]. *)
Inductive TagLookupResponse :=
| TagLookupFound (matches : list (ObjectId * option string * list Channel)) (count : nat)
| TagLookupNotFound
| TagLookupServerError.

(** [ch.tagNumber === tag] *)
Definition hasTag (tag : string) (ch : Channel) : bool :=
  match tagNumber ch with
  | TagStr s => String.eqb s tag
  | _ => false
  end.

(** [campaigns.find({ 'channels.tagNumber': tag }).toArray()] *)
Definition campaigns_find_tag (tag : string) : Async (list Campaign) :=
  do storeCall then
  (fun db => (Ok (List.filter (Store.carriesTag tag) (campaigns db)), db)).

(** [app.get('/api/campaigns/tag/:tagNumber')]: 404 when no campaign
    matches, else the matching campaigns, each with those of its
    channels that carry the tag, and their count.  Every campaign that
    [carriesTag] lets through has a [channels] array to filter. *)
Definition get_campaigns_tag (tag : string) (db : Db) : TagLookupResponse * Db :=
  match campaigns_find_tag tag db with
  | (Ok campaignsWithTag, db') =>
      if (length campaignsWithTag =? 0)%nat then (TagLookupNotFound, db')
      else
        (TagLookupFound
           (map (fun c => (_id c, campaignId c,
                           List.filter (hasTag tag) (default [] (channels c))))
                campaignsWithTag)
           (length campaignsWithTag), db')
  | (Thrown, db') => (TagLookupServerError, db')
  end.

(** The object literal [platformMap] of [getPlatformName]. *)
Definition platformMap : list (string * string) :=
  [ ("IG", "Instagram"); ("FB", "Facebook"); ("TT", "TikTok"); ("YT", "YouTube");
    ("SC", "Snapchat"); ("GG", "Google"); ("WA", "WhatsApp Group");
    ("GT", "Gold councils"); ("RC", "Residential Community");
    ("LC", "Lang/Cultural group"); ("RG", "Religious group");
    ("BC", "Bluecollar Camp"); ("NC", "Neighbourhood Community");
    ("SO", "Social organisations"); ("EV", "Event"); ("EX", "Exhibition");
    ("CP", "Channel Partners"); ("CO", "Corporate Partners"); ("HT", "Hotel");
    ("TD", "Tour Driver"); ("TC", "Tours&Travel Agency");
    ("PL", "New collection Launch"); ("WS", "Website"); ("EM", "Email");
    ("SMS", "SMS"); ("PM", "Print Media"); ("RD", "Radio"); ("TV", "Television");
    ("RF", "Referral"); ("SF", "Storefront"); ("OA", "Outdoor Ads"); ("OT", "Others") ].

(** The property names that every object literal inherits. *)
Definition objectPrototypeKeys : list string :=
  [ "constructor"; "hasOwnProperty"; "isPrototypeOf"; "propertyIsEnumerable";
    "toLocaleString"; "toString"; "valueOf"; "__proto__"; "__defineGetter__";
    "__defineSetter__"; "__lookupGetter__"; "__lookupSetter__" ].

(** The value of [platformMap[prefix] || prefix]: a string, or the
    inherited member that the look-up finds for one of the names above. *)
Inductive PlatformName :=
| PlatformNamed (name : string)
| PlatformInherited.

(** [function getPlatformName(prefix)] *)
Definition getPlatformName (prefix : string) : PlatformName :=
  match lookupPrefix platformMap prefix with
  | Some name => if String.eqb name "" then PlatformNamed prefix else PlatformNamed name
  | None =>
      if includes objectPrototypeKeys prefix then PlatformInherited
      else PlatformNamed prefix
  end.




(** Requests to [POST /api/tags/generate] served one after the other,
    with their answers in order. *)
Fixpoint allocateAll (channelTypes : list string) (db : Db) : list Response * Db :=
  match channelTypes with
  | [] => ([], db)
  | channelType :: rest =>
      let '(response, db1) := post_tags_generate (Some channelType) db in
      let '(responses, db2) := allocateAll rest db1 in
      (response :: responses, db2)
  end.

(** ** Further vocabulary *)

(** [Number.MAX_SAFE_INTEGER] *)
Definition MAX_SAFE_INTEGER : Z := 2 ^ 53 - 1.



(** The [channels] field of every campaign is an array. *)
Definition channelsAreArrays (cs : list Campaign) : Prop :=
  forall c, c ∈ cs -> channels c <> None.

(** A decidable form of [channelsAreArrays]. *)
Definition channelsAreArraysb (cs : list Campaign) : bool :=
  forallb (fun c => match channels c with Some _ => true | None => false end) cs.

(** Some persisted tag is read by the reconciler as the number [n] under
    the prefix [prefix]. *)
Definition observed (cs : list Campaign) (prefix : string) (n : Z) : Prop :=
  exists c chs ch raw,
    c ∈ cs /\ channels c = Some chs /\ ch ∈ chs /\ tagNumber ch = TagStr raw
    /\ splitTag raw = Some (prefix, n).

(** No channel carries a truthy [tagNumber] that is not a string. *)
Definition tagsAreStrings (cs : list Campaign) : Prop :=
  forall c chs ch,
    c ∈ cs -> channels c = Some chs -> ch ∈ chs -> tagNumber ch <> TagOther true.

Definition countersNonNegative (m : gmap string Z) : Prop :=
  forall p n, m !! p = Some n -> 0 <= n.

(** No counter is removed or lowered from [m] to [m']. *)
Definition countersNotLowered (m m' : gmap string Z) : Prop :=
  forall p n, m !! p = Some n -> exists n', m' !! p = Some n' /\ n <= n'.

(** Campaigns and identifier sequence as at the start ([cs0], [s0]); no
    counter lowered from [m0]; the counters of the prefixes other than
    [prefix] as in [m0]. *)
Definition allocationInvariant (cs0 : list Campaign) (s0 : N) (m0 : gmap string Z)
    (prefix : string) (db : Db) : Prop :=
  campaigns db = cs0 /\ campaignSeq db = s0
  /\ countersNotLowered m0 (tagCounters db)
  /\ forall p, p <> prefix -> tagCounters db !! p = m0 !! p.

(** The number [n] stands under the key [prefix] of [obj]. *)
Definition holdsNumber (obj : NumbersByPrefix) (prefix : string) (n : Z) : Prop :=
  exists ns, (prefix, ns) ∈ obj /\ n ∈ ns.

(** The keys of [obj] are pairwise distinct and each comes with at least
    one number, none negative. *)
Definition wellFormedNumbers (obj : NumbersByPrefix) : Prop :=
  NoDup (fst <$> obj)
  /\ forall prefix ns, (prefix, ns) ∈ obj -> ns <> [] /\ Forall (fun n => 0 <= n) ns.

(** What one channel adds to [tagNumbersByPrefix]. *)
Definition channelObserved (ch : Channel) (prefix : string) (n : Z) : Prop :=
  exists raw, tagNumber ch = TagStr raw /\ splitTag raw = Some (prefix, n).

(** [v] is the largest number that a persisted tag is read as under
    [prefix]. *)
Definition observedMaximum (cs : list Campaign) (prefix : string) (v : Z) : Prop :=
  observed cs prefix v /\ forall k, observed cs prefix k -> k <= v.

(** A decidable form of [tagsAreStrings]. *)
Definition tagsAreStringsb (cs : list Campaign) : bool :=
  forallb (fun c =>
             match channels c with
             | Some chs =>
                 forallb (fun ch => match tagNumber ch with
                                    | TagOther true => false
                                    | _ => true
                                    end) chs
             | None => true
             end) cs.

(** Every number that the reconciler reads from a persisted tag is a
    safe integer: [parseInt] returns it as it is. *)
Definition observedSafe (cs : list Campaign) : Prop :=
  forall prefix n, observed cs prefix n -> n <= MAX_SAFE_INTEGER.

(** A decidable form of [observedSafe]. *)
Definition observedSafeb (cs : list Campaign) : bool :=
  forallb (fun c =>
             match channels c with
             | Some chs =>
                 forallb (fun ch => match tagNumber ch with
                                    | TagStr raw =>
                                        match splitTag raw with
                                        | Some (_, n) => n <=? MAX_SAFE_INTEGER
                                        | None => true
                                        end
                                    | _ => true
                                    end) chs
             | None => true
             end) cs.

(** [I] looks at the tag counters only. *)
Definition countersOnly (I : Db -> Prop) : Prop :=
  forall db db', tagCounters db' = tagCounters db -> I db -> I db'.

(** [I] survives every write that a reconciliation over the campaigns of
    a state satisfying [I] may make. *)
Definition syncStable (I : Db -> Prop) : Prop :=
  forall db obj e w db2,
    I db -> collectTagNumbers (campaigns db) = Ok obj ->
    e ∈ Object_entries obj -> entryWrite e = Some w ->
    I db2 -> I (setTagCounters (<[w.1 := w.2]> (tagCounters db2)) db2).

(** Campaigns and identifier sequence as at the start ([cs0], [s0]);
    every counter either as in [m0] or at the largest number observed
    under its prefix in [cs0]. *)
Definition reconciliationInvariant (cs0 : list Campaign) (s0 : N) (m0 : gmap string Z)
    (db : Db) : Prop :=
  campaigns db = cs0 /\ campaignSeq db = s0
  /\ forall prefix,
       tagCounters db !! prefix = m0 !! prefix
       \/ exists v, tagCounters db !! prefix = Some v /\ observedMaximum cs0 prefix v.



(** The campaign [c] has a channel that carries exactly [tag]. *)
Definition campaignCarries (tag : string) (c : Campaign) : Prop :=
  exists chs ch, channels c = Some chs /\ ch ∈ chs /\ tagNumber ch = TagStr tag.


(** Every run of [m] from a state that satisfies [I] ends in a state
    that satisfies [I], with a result that satisfies [Q] when it does
    not throw. *)
Definition keeps {A} (I : Db -> Prop) (m : Async A) (Q : A -> Prop) : Prop :=
  forall db,
    I db ->
    match m db with
    | (Ok a, db') => I db' /\ Q a
    | (Thrown, db') => I db'
    end.

(** [I] does not look at the outcomes of the driver calls to come. *)
Definition faultStable (I : Db -> Prop) : Prop :=
  forall db fs, I db -> I (setFaults fs db).

(** The tags answered by a list of responses, the other answers left
    out. *)
Definition generatedTags (responses : list Response) : list string :=
  omap (fun r => match r with TagGenerated tag _ _ => Some tag | _ => None end) responses.

(** ** Facts about the string primitives *)

Section JsFacts.

Lemma append_cons c (a b : string) : String c a +:+ b = String c (a +:+ b).
Proof. reflexivity. Qed.

Lemma allChars_cons p c r : allChars p (String c r) = p c && allChars p r.
Proof. reflexivity. Qed.

Lemma allChars_app p a b :
  allChars p (a +:+ b) = allChars p a && allChars p b.
Proof.
  induction a as [|c a IH]; [reflexivity|].
  rewrite append_cons. cbn [allChars]. rewrite IH. apply andb_assoc.
Qed.

Lemma allChars_impl (p q : ascii -> bool) s :
  (forall c, p c = true -> q c = true) -> allChars p s = true -> allChars q s = true.
Proof.
  intros Hpq. induction s as [|c r IH]; simpl; [reflexivity|].
  intros [Hc Hr]%andb_prop. rewrite (Hpq _ Hc), (IH Hr). reflexivity.
Qed.

Lemma isDecimalDigit_not_ws c :
  Js.isDecimalDigit c = true -> negb (Js.isWhiteSpace c) = true.
Proof.
  unfold Js.isDecimalDigit, Js.isWhiteSpace.
  intros H. apply andb_prop in H as [H1 H2].
  apply Z.leb_le in H1, H2.
  apply negb_true_iff.
  repeat (apply orb_false_intro || apply andb_false_intro2 || apply andb_false_intro1).
  all: try (apply Nat.leb_gt; lia); try (apply Nat.eqb_neq; lia).
Qed.

Lemma trimStart_head c r :
  Js.isWhiteSpace c = false -> Js.trimStart (String c r) = String c r.
Proof. intros H. simpl. rewrite H. reflexivity. Qed.

Lemma trimEnd_no_ws s :
  allChars (fun c => negb (Js.isWhiteSpace c)) s = true -> Js.trimEnd s = s.
Proof.
  induction s as [|c r IH]; simpl; [reflexivity|].
  intros [Hc Hr]%andb_prop. rewrite (IH Hr).
  apply negb_true_iff in Hc. rewrite Hc.
  destruct r; reflexivity.
Qed.

Lemma trim_no_ws s :
  allChars (fun c => negb (Js.isWhiteSpace c)) s = true -> Js.trim s = s.
Proof.
  intros H. unfold Js.trim.
  destruct s as [|c r]; [reflexivity|].
  simpl in H. apply andb_prop in H as [Hc Hr].
  rewrite trimStart_head by (apply negb_true_iff; exact Hc).
  apply trimEnd_no_ws. simpl. rewrite Hc, Hr. reflexivity.
Qed.

Lemma digitChar_digit d :
  0 <= d <= 9 -> Js.isDecimalDigit (Js.digitChar d) = true
                 /\ Z.of_nat (nat_of_ascii (Js.digitChar d)) - 48 = d.
Proof.
  intros H.
  assert (d = 0 \/ d = 1 \/ d = 2 \/ d = 3 \/ d = 4 \/ d = 5 \/ d = 6 \/ d = 7
          \/ d = 8 \/ d = 9) as Hd by lia.
  repeat (destruct Hd as [-> | Hd]); try subst d; split; reflexivity.
Qed.

Lemma decimalValue_app a b x :
  decimalValue (a +:+ b) x = decimalValue b (decimalValue a x).
Proof.
  revert x. induction a as [|c a IH]; intros x; [reflexivity|].
  rewrite append_cons. cbn [decimalValue]. apply IH.
Qed.

Lemma string_app_assoc (a b c : string) : (a +:+ b) +:+ c = a +:+ (b +:+ c).
Proof.
  induction a as [|x a IH]; [reflexivity|].
  rewrite !append_cons, IH. reflexivity.
Qed.

(** The digits that [decimalDigits] puts in front of [acc] are decimal
    digits and denote [n]. *)
Lemma decimalDigits_spec fuel :
  forall n acc,
    0 <= n < 2 ^ (Z.of_nat fuel + 1) ->
    exists y p,
      Js.decimalDigits fuel n acc = y +:+ acc
      /\ y <> EmptyString
      /\ allChars Js.isDecimalDigit y = true
      /\ forall x, decimalValue y x = x * p + n.
Proof.
  assert (forall n acc, 0 <= n -> n / 10 = 0 ->
            exists y p,
              String (Js.digitChar (n mod 10)) acc = y +:+ acc
              /\ y <> EmptyString
              /\ allChars Js.isDecimalDigit y = true
              /\ forall x, decimalValue y x = x * p + n) as Hone.
  { intros n acc Hn Hq.
    pose proof (Z.mod_pos_bound n 10 ltac:(lia)) as Hmod.
    pose proof (Z.div_mod n 10 ltac:(lia)) as Hdm.
    destruct (digitChar_digit (n mod 10)) as [Hd Hv]; [lia|].
    exists (String (Js.digitChar (n mod 10)) EmptyString), 10.
    split; [reflexivity|]. split; [discriminate|].
    split; [cbn [allChars]; rewrite Hd; reflexivity|].
    intros x. cbn [decimalValue]. rewrite Hv. lia. }
  induction fuel as [|f IH]; intros n acc Hn.
  - cbn [Js.decimalDigits]. apply Hone; [lia|].
    apply Z.div_small. change (2 ^ (Z.of_nat 0 + 1)) with 2 in Hn. lia.
  - cbn [Js.decimalDigits].
    destruct (n / 10 =? 0) eqn:Hq.
    + apply Z.eqb_eq in Hq. apply Hone; [lia | exact Hq].
    + apply Z.eqb_neq in Hq.
      pose proof (Z.mod_pos_bound n 10 ltac:(lia)) as Hmod.
      pose proof (Z.div_mod n 10 ltac:(lia)) as Hdm.
      destruct (digitChar_digit (n mod 10)) as [Hd Hv]; [lia|].
      assert (0 <= n / 10 < 2 ^ (Z.of_nat f + 1)) as Hb.
      { split; [apply Z.div_pos; lia|].
        apply Z.div_lt_upper_bound; [lia|].
        replace (Z.of_nat (S f) + 1) with (Z.succ (Z.of_nat f + 1)) in Hn by lia.
        rewrite Z.pow_succ_r in Hn by lia. lia. }
      destruct (IH (n / 10) (String (Js.digitChar (n mod 10)) acc) Hb)
        as (y & p & Hy & Hne & Hall & Hval).
      exists (y +:+ String (Js.digitChar (n mod 10)) EmptyString), (10 * p).
      split; [rewrite Hy, string_app_assoc; reflexivity|].
      split; [destruct y; [congruence | discriminate]|].
      split; [rewrite allChars_app, Hall; cbn [allChars]; rewrite Hd; reflexivity|].
      intros x. rewrite decimalValue_app, Hval. cbn [decimalValue]. rewrite Hv. lia.
Qed.

(** [String(n)] of a non-negative integer is its decimal notation. *)
Lemma toString_spec n :
  0 <= n ->
  Js.toString n <> EmptyString
  /\ allChars Js.isDecimalDigit (Js.toString n) = true
  /\ decimalValue (Js.toString n) 0 = n.
Proof.
  intros Hn. unfold Js.toString.
  destruct (n <? 0) eqn:Hneg; [apply Z.ltb_lt in Hneg; lia|].
  assert (0 <= n < 2 ^ (Z.of_nat (Z.to_nat (Z.log2 n)) + 1)) as Hb.
  { split; [exact Hn|].
    rewrite Z2Nat.id by apply Z.log2_nonneg.
    destruct (Z.eq_dec n 0) as [-> | Hnz]; [reflexivity|].
    replace (Z.log2 n + 1) with (Z.succ (Z.log2 n)) by lia.
    apply Z.log2_spec. lia. }
  destruct (decimalDigits_spec _ n EmptyString Hb) as (y & p & Hy & Hne & Hall & Hval).
  assert (y +:+ EmptyString = y) as Hnil.
  { clear. induction y as [|c y IH]; [reflexivity|].
    rewrite append_cons, IH. reflexivity. }
  rewrite Hy, Hnil. split; [exact Hne|]. split; [exact Hall|].
  rewrite Hval. lia.
Qed.

Lemma digitValue_decimal c :
  Js.digitValue 10 c
  = if Js.isDecimalDigit c then Some (Z.of_nat (nat_of_ascii c) - 48) else None.
Proof. unfold Js.digitValue. destruct (Js.isDecimalDigit c); reflexivity. Qed.

Lemma scanDigits_decimal s a :
  Js.scanDigits 10 s (Some a) = Some (decimalValue (leadingDigits s) a).
Proof.
  revert a. induction s as [|c r IH]; intros a; [reflexivity|].
  cbn [Js.scanDigits leadingDigits]. rewrite digitValue_decimal.
  destruct (Js.isDecimalDigit c); [|reflexivity].
  cbn [decimalValue default from_option]. apply IH.
Qed.


Lemma leadingDigits_digits s : allChars Js.isDecimalDigit (leadingDigits s) = true.
Proof.
  induction s as [|c r IH]; [reflexivity|].
  cbn [leadingDigits]. destruct (Js.isDecimalDigit c) eqn:Hc; [|reflexivity].
  cbn [allChars]. rewrite Hc, IH. reflexivity.
Qed.

Lemma decimalValue_nonneg s a :
  allChars Js.isDecimalDigit s = true -> 0 <= a -> 0 <= decimalValue s a.
Proof.
  revert a. induction s as [|c r IH]; intros a; [intros _ Ha; exact Ha|].
  cbn [allChars decimalValue]. intros [Hc Hr]%andb_prop Ha.
  apply IH; [exact Hr|].
  unfold Js.isDecimalDigit in Hc. apply andb_prop in Hc as [H1 _].
  apply Z.leb_le in H1. lia.
Qed.

Lemma digit_not_sign c :
  Js.isDecimalDigit c = true -> Ascii.eqb c "-" = false /\ Ascii.eqb c "+" = false.
Proof.
  intros H. split.
  - destruct (Ascii.eqb_spec c "-") as [-> |]; [discriminate H | reflexivity].
  - destruct (Ascii.eqb_spec c "+") as [-> |]; [discriminate H | reflexivity].
Qed.



(** [parseInt] on a string that starts with a decimal digit and has no
    hexadecimal prefix reads the leading decimal digits. *)
Lemma parseInt_leading_digits c r :
  Js.isDecimalDigit c = true ->
  Js.hasHexPrefix (String c r) = false ->
  Js.parseInt (String c r) = Some (decimalValue (leadingDigits (String c r)) 0).
Proof.
  intros Hc Hhex. unfold Js.parseInt.
  rewrite trimStart_head
    by (apply negb_true_iff, isDecimalDigit_not_ws; exact Hc).
  destruct (digit_not_sign _ Hc) as [-> ->]. rewrite Hhex.
  cbn [Js.scanDigits leadingDigits]. rewrite digitValue_decimal, Hc.
  rewrite scanDigits_decimal. reflexivity.
Qed.

Lemma allChars_repeatChar p k c : p c = true -> allChars p (Js.repeatChar k c) = true.
Proof.
  intros Hc. induction k as [|k IH]; [reflexivity|].
  cbn [Js.repeatChar allChars]. rewrite Hc, IH. reflexivity.
Qed.

Lemma decimalValue_zeros k : decimalValue (Js.repeatChar k "0") 0 = 0.
Proof. induction k as [|k IH]; [reflexivity|]. exact IH. Qed.

(** The five-digit rendering of a non-negative number: decimal digits
    only, at least one, denoting the number. *)
Lemma padStart_toString_spec n :
  0 <= n ->
  exists c r,
    Js.padStart 5 "0" (Js.toString n) = String c r
    /\ allChars Js.isDecimalDigit (String c r) = true
    /\ decimalValue (String c r) 0 = n.
Proof.
  intros Hn. destruct (toString_spec n Hn) as (Hne & Hall & Hval).
  assert (allChars Js.isDecimalDigit (Js.padStart 5 "0" (Js.toString n)) = true) as Hpad.
  { unfold Js.padStart. rewrite allChars_app, Hall, allChars_repeatChar; reflexivity. }
  assert (decimalValue (Js.padStart 5 "0" (Js.toString n)) 0 = n) as Hv.
  { unfold Js.padStart. rewrite decimalValue_app, decimalValue_zeros. exact Hval. }
  destruct (Js.padStart 5 "0" (Js.toString n)) as [|c r] eqn:E.
  - exfalso. unfold Js.padStart in E.
    destruct (Js.toString n) as [|c' r'] eqn:E'; [congruence|].
    destruct (Js.repeatChar (5 - String.length (String c' r')) "0"); discriminate E.
  - exists c, r. split; [reflexivity|]. split; assumption.
Qed.


End JsFacts.

(** ** Facts about [splitTag] *)

Section SplitTagFacts.


(** With the three-letter prefix of the channel type SMS, the split
    puts the third letter in front of the digits and the tag is
    skipped. *)
Lemma splitTag_formatTag_SMS n : 0 <= n -> splitTag (formatTag "SMS" n) = None.
Proof.
  intros Hn.
  destruct (padStart_toString_spec n Hn) as (c & r & Hpad & Hall & _).
  unfold splitTag, formatTag. rewrite Hpad.
  change ("SMS" +:+ String c r) with (String "S" (String "M" (String "S" (String c r)))).
  assert (allChars (fun x => negb (Js.isWhiteSpace x)) (String c r) = true) as Hnws
    by (eapply allChars_impl; [|exact Hall]; apply isDecimalDigit_not_ws).
  rewrite trim_no_ws
    by (rewrite 3!allChars_cons, Hnws; reflexivity).
  reflexivity.
Qed.

End SplitTagFacts.

(** ** The handlers on small stores *)

Example trim_tag : Js.trim "  IG00001 " = "IG00001".
Proof. reflexivity. Qed.

Example parseInt_leading_zeros : Js.parseInt "00042" = Some 42.
Proof. reflexivity. Qed.

Example parseInt_not_a_number : Js.parseInt "S00001" = None.
Proof. reflexivity. Qed.

Example formatTag_pads : formatTag "GG" 42 = "GG00042" /\ formatTag "GG" 1234567 = "GG1234567".
Proof. split; reflexivity. Qed.

Example Object_entries_order :
  Object_entries [("IG", [1]); ("99", [2]); ("10", [3]); ("01", [4])]
  = [("10", [3]); ("99", [2]); ("IG", [1]); ("01", [4])].
Proof. vm_compute. reflexivity. Qed.

(** Two allocations, a tag IG00005 saved without passing through the
    allocator, the reconciliation that follows the save, a third
    allocation. *)
Example end_to_end :
  let r1 := post_tags_generate (Some "Instagram") db_empty in
  let r2 := post_tags_generate (Some "Instagram") r1.2 in
  let r3 := post_campaigns (mkCampaignData None (Some [channel "IG00005"])) r2.2 in
  let r4 := post_tags_generate (Some "Instagram") r3.2 in
  r1.1 = TagGenerated "IG00001" "IG" 1 /\ r2.1 = TagGenerated "IG00002" "IG" 2
  /\ r3.1 = CampaignSaved "MK_000001" /\ r4.1 = TagGenerated "IG00006" "IG" 6.
Proof. vm_compute. repeat split. Qed.

Example unknown_channel_type :
  post_tags_generate (Some "Carrier Pigeon") db_empty
  = (UnknownChannelType "Carrier Pigeon", db_empty).
Proof. reflexivity. Qed.

Example duplicate_within_campaign :
  (post_campaigns (mkCampaignData None (Some [channel "IG00001"; channel "IG00001"]))
     db_empty).1
  = DuplicateInCampaign ["IG00001"].
Proof. vm_compute. reflexivity. Qed.

Example generate_answers_500_when_store_rejects :
  (post_tags_generate (Some "Instagram") (mkDb [] ∅ 0 [true])).1 = ServerError.
Proof. reflexivity. Qed.

(** ** Runs in which no driver call rejects *)

Section NoFault.

Lemma setTagCounters_same db : setTagCounters (tagCounters db) db = db.
Proof. destruct db; reflexivity. Qed.

Lemma setTagCounters_twice m m' db :
  setTagCounters m (setTagCounters m' db) = setTagCounters m db.
Proof. reflexivity. Qed.

Lemma storeCall_nofault db : faults db = [] -> storeCall db = (Ok tt, db).
Proof. intros H. unfold storeCall. rewrite H. reflexivity. Qed.

Lemma bind_storeCall_nofault {A} (k : unit -> Async A) db :
  faults db = [] -> bind storeCall k db = k tt db.
Proof. intros H. unfold bind. rewrite (storeCall_nofault db H). reflexivity. Qed.

Lemma bind_ok {A B} (m : Async A) (k : A -> Async B) db a db' :
  m db = (Ok a, db') -> bind m k db = k a db'.
Proof. intros H. unfold bind. rewrite H. reflexivity. Qed.

Lemma bind_thrown {A B} (m : Async A) (k : A -> Async B) db db' :
  m db = (Thrown, db') -> bind m k db = (Thrown, db').
Proof. intros H. unfold bind. rewrite H. reflexivity. Qed.

Lemma campaigns_find_nofault db :
  faults db = [] -> Store.campaigns_find db = (Ok (campaigns db), db).
Proof. intros H. unfold Store.campaigns_find. rewrite bind_storeCall_nofault; auto. Qed.

Lemma campaigns_findOne_tag_nofault tag db :
  faults db = [] ->
  Store.campaigns_findOne_tag tag db
  = (Ok (List.find (Store.carriesTag tag) (campaigns db)), db).
Proof. intros H. unfold Store.campaigns_findOne_tag. rewrite bind_storeCall_nofault; auto. Qed.


Lemma tagCounters_findOne_nofault prefix db :
  faults db = [] ->
  Store.tagCounters_findOne prefix db = (Ok (tagCounters db !! prefix), db).
Proof. intros H. unfold Store.tagCounters_findOne. rewrite bind_storeCall_nofault; auto. Qed.

Lemma tagCounters_insertOne_nofault prefix n db :
  faults db = [] -> tagCounters db !! prefix = None ->
  Store.tagCounters_insertOne prefix n db
  = (Ok tt, setTagCounters (<[prefix := n]> (tagCounters db)) db).
Proof.
  intros H Hnone. unfold Store.tagCounters_insertOne.
  rewrite bind_storeCall_nofault by exact H. rewrite Hnone. reflexivity.
Qed.

Lemma tagCounters_updateOne_upsert_nofault prefix n db :
  faults db = [] ->
  Store.tagCounters_updateOne_upsert prefix n db
  = (Ok tt, setTagCounters (<[prefix := n]> (tagCounters db)) db).
Proof.
  intros H. unfold Store.tagCounters_updateOne_upsert.
  rewrite bind_storeCall_nofault; auto.
Qed.

Lemma tagCounters_find_nofault db :
  faults db = [] ->
  Store.tagCounters_find db = (Ok (map_to_list (tagCounters db)), db).
Proof. intros H. unfold Store.tagCounters_find. rewrite bind_storeCall_nofault; auto. Qed.

Lemma updateCounters_nofault entries :
  forall db,
    faults db = [] ->
    updateCounters entries db
    = (Ok tt, setTagCounters (applyEntries entries (tagCounters db)) db).
Proof.
  induction entries as [|[prefix numbers] rest IH]; intros db Hf.
  - cbn. rewrite setTagCounters_same. reflexivity.
  - cbn [updateCounters]. unfold applyEntries. cbn [omap list_omap].
    unfold entryWrite at 1. cbn [fst snd].
    assert ((0 <? length numbers)%nat = false ->
            List.filter (fun n => 0 <=? n) numbers = []) as Hempty.
    { destruct numbers; [reflexivity | discriminate]. }
    destruct (0 <? length numbers)%nat eqn:Hlen.
    + destruct (List.filter (fun n => 0 <=? n) numbers) as [|n ns] eqn:Hfilter.
      * erewrite bind_ok by reflexivity. rewrite (IH db Hf). reflexivity.
      * erewrite bind_ok by (apply tagCounters_updateOne_upsert_nofault; exact Hf).
        rewrite IH by exact Hf. reflexivity.
    + rewrite (Hempty eq_refl).
      erewrite bind_ok by reflexivity. rewrite (IH db Hf). reflexivity.
Qed.

(** [syncTagCounters] when no driver call rejects: the counters of the
    prefixes seen in the campaigns are overwritten, unless the scan
    throws, in which case nothing is written. *)
Lemma syncTagCounters_nofault db :
  faults db = [] ->
  syncTagCounters db
  = (Ok tt,
     match collectTagNumbers (campaigns db) with
     | Ok obj => setTagCounters (applyEntries (Object_entries obj) (tagCounters db)) db
     | Thrown => db
     end).
Proof.
  intros Hf. unfold syncTagCounters, tryCatch.
  erewrite bind_ok by (apply campaigns_find_nofault; exact Hf).
  destruct (collectTagNumbers (campaigns db)) as [obj|] eqn:Hscan.
  - erewrite bind_ok by reflexivity.
    erewrite bind_ok by (apply updateCounters_nofault; exact Hf).
    erewrite bind_ok by (apply tagCounters_find_nofault; exact Hf).
    reflexivity.
  - erewrite bind_thrown by reflexivity.
    reflexivity.
Qed.

Lemma find_carriesTag_None tag cs :
  List.find (Store.carriesTag tag) cs = None <-> ~ tagPersisted tag cs.
Proof.
  split.
  - intros Hnone (c & chs & ch & Hc & Hchs & Hch & Htag).
    apply list_elem_of_In in Hc.
    pose proof (find_none _ _ Hnone c Hc) as Hno.
    unfold Store.carriesTag in Hno. rewrite Hchs in Hno.
    apply not_true_iff_false in Hno. apply Hno.
    apply existsb_exists. exists ch. split; [apply list_elem_of_In; exact Hch|].
    rewrite Htag. apply String.eqb_refl.
  - intros Hno. destruct (List.find (Store.carriesTag tag) cs) as [c|] eqn:Hfind;
      [|reflexivity].
    exfalso. apply Hno. apply find_some in Hfind as [Hin Hc].
    unfold Store.carriesTag in Hc.
    destruct (channels c) as [chs|] eqn:Hchs; [|discriminate].
    apply existsb_exists in Hc as (ch & Hch & Heq).
    destruct (tagNumber ch) as [|s|] eqn:Htag; try discriminate.
    apply String.eqb_eq in Heq. subst s.
    exists c, chs, ch. repeat split; try assumption; apply list_elem_of_In; assumption.
Qed.

(** [POST /api/tags/generate] for a known channel type when no driver
    call rejects. *)
Lemma post_tags_generate_nofault channelType prefix db :
  prefixFor (Js.trim channelType) = Some prefix ->
  faults db = [] ->
  let lastNumber := default 0 (tagCounters db !! prefix) in
  let used :=
    match List.find (Store.carriesTag (formatTag prefix (lastNumber + 1))) (campaigns db)
    with Some _ => lastNumber + 2 | None => lastNumber + 1 end in
  post_tags_generate (Some channelType) db
  = (TagGenerated (formatTag prefix used) prefix used,
     setTagCounters (<[prefix := used]> (tagCounters db)) db).
Proof.
  intros Hprefix Hf lastNumber used. unfold post_tags_generate.
  assert (String.eqb (Js.trim channelType) "" = false) as Htrim.
  { destruct (String.eqb_spec (Js.trim channelType) "") as [E|]; [|reflexivity].
    rewrite E in Hprefix. discriminate Hprefix. }
  assert (String.eqb channelType "" = false) as Hraw.
  { destruct (String.eqb_spec channelType "") as [E|]; [|reflexivity].
    subst channelType. discriminate Htrim. }
  rewrite Hraw, Htrim, Hprefix. unfold respond.
  erewrite bind_ok by (apply tagCounters_findOne_nofault; exact Hf).
  subst used lastNumber.
  destruct (tagCounters db !! prefix) as [n|] eqn:Hcounter; cbn [from_option id].
  - erewrite bind_ok by reflexivity.
    erewrite bind_ok by (apply campaigns_findOne_tag_nofault; exact Hf).
    replace (n + 1 + 1) with (n + 2) by lia.
    destruct (List.find _ (campaigns db)) as [c|];
      (erewrite bind_ok by (apply tagCounters_updateOne_upsert_nofault; exact Hf));
      reflexivity.
  - erewrite bind_ok.
    2:{ erewrite bind_ok by (apply tagCounters_insertOne_nofault; assumption).
        reflexivity. }
    erewrite bind_ok by (apply campaigns_findOne_tag_nofault; exact Hf).
    cbn [campaigns setTagCounters].
    replace (0 + 1 + 1) with (0 + 2) by lia.
    destruct (List.find _ (campaigns db)) as [c|];
      (erewrite bind_ok by (apply tagCounters_updateOne_upsert_nofault; exact Hf));
      cbn [ret setTagCounters campaigns tagCounters campaignSeq faults];
      rewrite insert_insert_eq; reflexivity.
Qed.

End NoFault.

(** ** Runs in which driver calls may reject *)

Section AnyRun.

Lemma bind_ok_inv {A B} (m : Async A) (k : A -> Async B) db b db2 :
  bind m k db = (Ok b, db2) ->
  exists a db1, m db = (Ok a, db1) /\ k a db1 = (Ok b, db2).
Proof.
  unfold bind. destruct (m db) as [[a|] db1]; intros H; [eauto | discriminate H].
Qed.

Lemma respond_inv m db r db' :
  respond m db = (r, db') ->
  m db = (Ok r, db') \/ (r = ServerError /\ m db = (Thrown, db')).
Proof.
  unfold respond. destruct (m db) as [[a|] db1]; intros [= <- <-]; auto.
Qed.

Lemma sameData_refl db : sameData db db.
Proof. repeat split. Qed.

Lemma sameData_trans db1 db2 db3 : sameData db1 db2 -> sameData db2 db3 -> sameData db1 db3.
Proof. unfold sameData. intros (-> & -> & ->) (-> & -> & ->). repeat split. Qed.

Lemma storeCall_sameData db o db' : storeCall db = (o, db') -> sameData db db'.
Proof.
  unfold storeCall. destruct (faults db) as [|f fs]; intros [= <- <-]; repeat split.
Qed.



End AnyRun.

(** ** Tag allocation *)



(** ** Reconciliation *)

Section Reconcile.

Lemma applyEntries_cons e entries m :
  applyEntries (e :: entries) m
  = applyEntries entries
      (match entryWrite e with Some w => <[w.1 := w.2]> m | None => m end).
Proof.
  unfold applyEntries. cbn [omap list_omap].
  destruct (entryWrite e); reflexivity.
Qed.

Lemma entryWrite_key e w : entryWrite e = Some w -> w.1 = e.1.
Proof.
  unfold entryWrite. destruct (List.filter _ e.2); intros [= <-]; reflexivity.
Qed.

Lemma applyWrites_union (writes : list (string * Z)) (m : gmap string Z) :
  fold_left (fun m w => <[w.1 := w.2]> m) writes m = list_to_map (rev writes) ∪ m.
Proof.
  revert m. induction writes as [|[k v] writes IH]; intros m.
  - cbn. rewrite (left_id_L ∅ (∪)). reflexivity.
  - cbn [fold_left rev fst snd]. rewrite IH.
    rewrite list_to_map_app. cbn [list_to_map foldr fst snd].
    rewrite insert_empty, <- (assoc_L (∪)), <- insert_union_singleton_l.
    reflexivity.
Qed.

(** Running the write loop a second time over the same entries changes
    nothing. *)
Lemma applyEntries_idem entries m :
  applyEntries entries (applyEntries entries m) = applyEntries entries m.
Proof.
  unfold applyEntries. rewrite !applyWrites_union.
  rewrite (assoc_L (∪)), (idemp_L (∪)). reflexivity.
Qed.

(** The write loop leaves alone the counter of a prefix that is not a
    key of the entries. *)
Lemma applyEntries_lookup_other entries :
  forall m k, k ∉ (fst <$> entries) -> applyEntries entries m !! k = m !! k.
Proof.
  induction entries as [|e entries IH]; intros m k Hk; [reflexivity|].
  rewrite applyEntries_cons. rewrite fmap_cons in Hk.
  apply not_elem_of_cons in Hk as [Hne Hk].
  rewrite IH by exact Hk.
  destruct (entryWrite e) as [w|] eqn:Hw; [|reflexivity].
  apply entryWrite_key in Hw. apply lookup_insert_ne. congruence.
Qed.


Lemma pushNumber_keys prefix n obj k :
  k ∈ (fst <$> pushNumber prefix n obj) -> k ∈ (fst <$> obj) \/ k = prefix.
Proof.
  induction obj as [|[k' ns] r IH]; cbn [pushNumber].
  - intros H. apply list_elem_of_singleton in H. right. exact H.
  - destruct (String.eqb k' prefix).
    + intros H. left. exact H.
    + rewrite !fmap_cons. cbn [fst].
      intros [-> | H]%elem_of_cons; [left; apply list_elem_of_here|].
      destruct (IH H) as [H' | ->]; [left; apply list_elem_of_further; exact H' | right; reflexivity].
Qed.





End Reconcile.

(** C1 ([lastNumber] never decreases; the reconciler writes the larger
    of the stored and the observed number).  The reconciler writes the
    observed maximum whatever the counter holds.  Five tags are handed
    out for Instagram, so the counter stands at 5; a campaign is then
    saved with IG00003 alone.  The reconciliation that follows the save
    sets the counter back to 3 and the next request is answered with
    IG00004, a tag already handed out.  The same on a store that holds
    the counter 5 and the tag IG00003 from the start. *)
Theorem syncTagCounters_lowers_counter :
  tagCounters db_five_allocated !! "IG" = Some 5
  /\ (let db := (post_campaigns (mkCampaignData None (Some [channel "IG00003"]))
                   db_five_allocated).2 in
      tagCounters db !! "IG" = Some 3
      /\ (post_tags_generate (Some "Instagram") db).1 = TagGenerated "IG00004" "IG" 4)
  /\ tagCounters db_counter_ahead !! "IG" = Some 5
  /\ tagCounters (syncTagCounters db_counter_ahead).2 !! "IG" = Some 3.
Proof. vm_compute. repeat split. Qed.

(** ** Format and split *)


(** C3 (a rendered tag is split back into its prefix and number, for
    every prefix of the allocator, SMS included).  The reconciler always
    cuts after two characters.  The tag that the allocator renders for
    the channel type SMS is cut into SM and S00001, which is not a
    number: the tag is skipped, and reconciliation neither reads nor
    writes the counter of SMS. *)
Theorem splitTag_drops_sms_tag :
  prefixFor "SMS" = Some "SMS"
  /\ formatTag "SMS" 1 = "SMS00001"
  /\ splitTag "SMS00001" = None
  /\ collectTagNumbers (campaigns db_sms) = Ok []
  /\ tagCounters (syncTagCounters db_sms).2 = tagCounters db_sms.
Proof. vm_compute. repeat split. Qed.

(** ** History preservation *)





(** ** Idempotence *)

(** C5.  When no driver call rejects, a second reconciliation right
    after a first one leaves the whole store as the first one left it. *)
Theorem syncTagCounters_idempotent db :
  faults db = [] ->
  (syncTagCounters (syncTagCounters db).2).2 = (syncTagCounters db).2.
Proof.
  intros Hf. rewrite (syncTagCounters_nofault db Hf). cbn [snd].
  destruct (collectTagNumbers (campaigns db)) as [obj|] eqn:Hscan.
  - rewrite syncTagCounters_nofault by exact Hf.
    cbn [snd campaigns setTagCounters tagCounters]. rewrite Hscan.
    rewrite applyEntries_idem. reflexivity.
  - rewrite (syncTagCounters_nofault db Hf). rewrite Hscan. reflexivity.
Qed.

Lemma syncTagCounters_idempotent_witness :
  tagCounters (syncTagCounters db_counter_behind).2 !! "IG" = Some 5
  /\ (syncTagCounters (syncTagCounters db_counter_behind).2).2
     = (syncTagCounters db_counter_behind).2.
Proof.
  split; [vm_compute; reflexivity|].
  apply (syncTagCounters_idempotent db_counter_behind). reflexivity.
Defined.

(** ** Failures of the store during reconciliation *)

Lemma syncTagCounters_never_throws db : exists db', syncTagCounters db = (Ok tt, db').
Proof.
  unfold syncTagCounters, tryCatch.
  match goal with |- context [match ?m db with _ => _ end] => destruct (m db) as [[[]|] db1] end;
    eauto.
Qed.

(** C9 (a store failure during reconciliation reaches the caller, and
    the manual sync endpoint reports it).  [syncTagCounters] catches
    every exception and only logs it, so the [catch] of the endpoint is
    never entered: the endpoint answers that the counters were synced in
    every run, also when the very first driver call rejects and nothing
    has been read or written.  No call is tried again. *)
Theorem post_tags_sync_hides_store_failure :
  (forall db, (post_tags_sync db).1 = TagsSynced)
  /\ (forall cs m seq fs,
        post_tags_sync (mkDb cs m seq (true :: fs)) = (TagsSynced, mkDb cs m seq fs)).
Proof.
  split.
  - intros db. unfold post_tags_sync, respond.
    destruct (syncTagCounters_never_throws db) as (db' & Hsync).
    erewrite bind_ok by exact Hsync. reflexivity.
  - intros cs m seq fs. reflexivity.
Qed.

(** ** Tags with letters after the digits *)

Lemma leadingDigits_head suffix :
  leadingDigits suffix <> EmptyString ->
  exists c r, suffix = String c r /\ Js.isDecimalDigit c = true.
Proof.
  destruct suffix as [|c r]; cbn [leadingDigits]; [congruence|].
  destruct (Js.isDecimalDigit c) eqn:Hc; [|congruence].
  intros _. exists c, r. split; [reflexivity | exact Hc].
Qed.

Lemma Object_entries_singleton e : Object_entries [e] = [e].
Proof.
  unfold Object_entries. cbn [omap list_omap].
  destruct (arrayIndex e.1) as [i|] eqn:Hi.
  - cbn. case_decide as Hd; [rewrite Hi in Hd; discriminate Hd | reflexivity].
  - cbn. case_decide as Hd; [reflexivity | contradiction].
Qed.

(** C10, as worded: every tag whose suffix is digits followed by
    something else is counted with the number of its leading digits.
    The tag IG0x1F has the suffix 0x1F, whose leading digits are 0, yet
    [parseInt] reads the suffix as a hexadecimal number and the tag is
    counted with 31. *)
Lemma leading_digits_hex_counterexample :
  digitsThenOther (tagSuffix "IG0x1F")
  /\ leadingDigits (tagSuffix "IG0x1F") = "0"
  /\ splitTag "IG0x1F" = Some ("IG", 31)
  /\ ~ countedAsLeadingDigits "IG0x1F".
Proof.
  split; [split; vm_compute; discriminate|].
  split; [reflexivity|]. split; [reflexivity|].
  unfold countedAsLeadingDigits. vm_compute. discriminate.
Qed.

(** The same prefix with no hexadecimal digit after it: the tag is
    skipped. *)
Example hex_prefix_alone_is_skipped :
  digitsThenOther (tagSuffix "IG0x") /\ splitTag "IG0x" = None.
Proof. split; [split; vm_compute; discriminate | reflexivity]. Qed.

(** C10, amended.  A tag whose suffix after the first two characters
    begins with decimal digits followed by something else, does not
    begin with 0x or 0X, and whose leading digits denote a safe integer
    (at most 2^53 - 1, so that [parseInt] returns it as it is), is not
    skipped: it is split into its first two characters and the number of
    its leading digits; that number is pushed under the prefix; and
    reconciling a store where the tag is the only one sets the counter of
    the prefix to that number. *)
Theorem splitTag_leading_digits raw :
  digitsThenOther (tagSuffix raw) ->
  Js.hasHexPrefix (tagSuffix raw) = false ->
  decimalValue (leadingDigits (tagSuffix raw)) 0 <= MAX_SAFE_INTEGER ->
  let number := decimalValue (leadingDigits (tagSuffix raw)) 0 in
  countedAsLeadingDigits raw
  /\ (forall obj, recordChannel obj (mkChannel (TagStr raw))
                  = Ok (pushNumber (tagPrefix raw) number obj))
  /\ (forall oid cid m seq,
        tagCounters (syncTagCounters
                       (mkDb [mkCampaign oid cid (Some [mkChannel (TagStr raw)])]
                             m seq [])).2 !! tagPrefix raw
        = Some number).
Proof.
  intros [Hdigits _] Hhex _ number.
  destruct (leadingDigits_head _ Hdigits) as (c & r & Hsuffix & Hc).
  assert (0 <= number) as Hpos
    by (apply decimalValue_nonneg; [apply leadingDigits_digits | lia]).
  assert (splitTag raw = Some (tagPrefix raw, number)) as Hsplit.
  { unfold splitTag. fold (tagSuffix raw). fold (tagPrefix raw).
    assert ((String.length (Js.trim raw) <? 3)%nat = false) as ->.
    { unfold tagSuffix in Hsuffix.
      destruct (Js.trim raw) as [|a [|b [|x t]]]; try discriminate Hsuffix.
      reflexivity. }
    subst number. rewrite Hsuffix in *.
    rewrite (parseInt_leading_digits c r Hc Hhex).
    destruct (_ <? 0) eqn:Hneg; [apply Z.ltb_lt in Hneg; lia | reflexivity]. }
  assert (forall obj, recordChannel obj (mkChannel (TagStr raw))
                      = Ok (pushNumber (tagPrefix raw) number obj)) as Hrecord.
  { intros obj. unfold recordChannel. cbn [tagNumber].
    assert (Js.trim raw <> EmptyString) as Htrim.
    { intros E. unfold tagSuffix in Hsuffix. rewrite E in Hsuffix. discriminate Hsuffix. }
    assert (raw <> EmptyString) as Hraw by (intros ->; apply Htrim; reflexivity).
    apply String.eqb_neq in Htrim, Hraw. rewrite Hraw, Htrim, Hsplit. reflexivity. }
  split; [exact Hsplit|]. split; [exact Hrecord|].
  intros oid cid m seq.
  rewrite syncTagCounters_nofault by reflexivity.
  unfold collectTagNumbers. cbn [campaigns forEach recordCampaign channels].
  rewrite Hrecord. cbn [pushNumber snd setTagCounters tagCounters].
  rewrite Object_entries_singleton, applyEntries_cons.
  unfold entryWrite. cbn [fst snd List.filter].
  assert ((0 <=? number) = true) as -> by (apply Z.leb_le; exact Hpos).
  cbn [Js.Math_max fold_left fst snd]. unfold applyEntries. cbn [omap list_omap fold_left].
  apply lookup_insert_eq.
Qed.

Lemma splitTag_leading_digits_witness :
  splitTag "IG12ab" = Some ("IG", 12)
  /\ tagCounters (syncTagCounters db_digits_then_letters).2 !! "IG" = Some 12.
Proof.
  assert (digitsThenOther (tagSuffix "IG12ab")) as Hshape
    by (split; vm_compute; discriminate).
  assert (decimalValue (leadingDigits (tagSuffix "IG12ab")) 0 <= MAX_SAFE_INTEGER) as Hsafe
    by (vm_compute; discriminate).
  destruct (splitTag_leading_digits "IG12ab" Hshape eq_refl Hsafe) as (Hsplit & _ & Hsync).
  split; [exact Hsplit|].
  exact (Hsync 1%N (Some "MK_000001") {[ "IG" := 3 ]} 1%N).
Defined.

(** ** Trimming in the uniqueness validation *)

(** C6 (the validation compares trimmed tags on both sides).  Only the
    submitted tags are trimmed: the tags read from the store are put in
    the set [existingTags] as they are, and the campaign is stored with
    its tags as submitted.  A campaign saved with the tag IG00001
    followed by a blank is therefore not seen when a second campaign
    submits IG00001: the second campaign is saved too.  Against a stored
    tag without the blank, the same submission is rejected. *)
Theorem post_campaigns_misses_untrimmed_persisted_tag :
  map channels (campaigns db_tag_with_blank) = [Some [channel "IG00001 "]]
  /\ (let run := post_campaigns (mkCampaignData None (Some [channel "IG00001"]))
                   db_tag_with_blank in
      run.1 = CampaignSaved "MK_000002"
      /\ map channels (campaigns run.2)
         = [Some [channel "IG00001 "]; Some [channel "IG00001"]])
  /\ (post_campaigns (mkCampaignData None (Some [channel "IG00001"])) db_tag_bare).1
     = DuplicateAcrossCampaigns ["IG00001"].
Proof. vm_compute. repeat split. Qed.

(** ** The uniqueness validation writes nothing *)

Section Validation.

Lemma campaigns_find_sameData db o db' :
  Store.campaigns_find db = (o, db') -> sameData db db'.
Proof.
  unfold Store.campaigns_find, bind.
  destruct (storeCall db) as [[[]|] db1] eqn:Hcall; intros [= <- <-];
    eapply storeCall_sameData; exact Hcall.
Qed.

Lemma campaigns_findOne_id_sameData oid db o db' :
  Store.campaigns_findOne_id oid db = (o, db') -> sameData db db'.
Proof.
  unfold Store.campaigns_findOne_id, bind.
  destruct (storeCall db) as [[[]|] db1] eqn:Hcall; intros [= <- <-];
    eapply storeCall_sameData; exact Hcall.
Qed.

Lemma validateTagNumbers_sameData skip d db o db' :
  validateTagNumbers skip d db = (o, db') -> sameData db db'.
Proof.
  unfold validateTagNumbers.
  destruct (data_channels d) as [chs|]; [|intros [= <- <-]; apply sameData_refl].
  destruct (0 <? length _)%nat; [|intros [= <- <-]; apply sameData_refl].
  destruct (negb _); [intros [= <- <-]; apply sameData_refl|].
  unfold bind.
  destruct (Store.campaigns_find db) as [[cs|] db1] eqn:Hfind.
  - destruct (0 <? length _)%nat; intros [= <- <-];
      eapply campaigns_find_sameData; exact Hfind.
  - intros [= <- <-]. eapply campaigns_find_sameData; exact Hfind.
Qed.

End Validation.

(** C8.  When the create or the update handler answers with one of the
    two duplicate rejections, the campaigns, the tag counters and the
    campaign identifier sequence are what they were before the call. *)
Theorem rejected_write_changes_nothing campaignData oid db :
  (isDuplicateRejection (post_campaigns campaignData db).1 ->
   sameData db (post_campaigns campaignData db).2)
  /\ (isDuplicateRejection (put_campaigns oid campaignData db).1 ->
      sameData db (put_campaigns oid campaignData db).2).
Proof.
  split.
  - unfold post_campaigns.
    destruct (respond _ db) as [r db'] eqn:Hrun. cbn [fst snd]. intros Hrej.
    apply respond_inv in Hrun as [Hrun | [-> _]]; [|contradiction Hrej].
    apply bind_ok_inv in Hrun as (rejected & db1 & Hval & Hrun).
    apply validateTagNumbers_sameData in Hval.
    destruct rejected as [response|].
    + injection Hrun as <- <-. exact Hval.
    + exfalso.
      apply bind_ok_inv in Hrun as (cid & db2 & _ & Hrun).
      apply bind_ok_inv in Hrun as (? & db3 & _ & Hrun).
      apply bind_ok_inv in Hrun as (? & db4 & _ & Hrun).
      apply bind_ok_inv in Hrun as (? & db5 & _ & Hrun).
      injection Hrun as <- <-. exact Hrej.
  - unfold put_campaigns.
    destruct (ObjectId_of oid) as [objectId|]; [|intros []].
    destruct (respond _ db) as [r db'] eqn:Hrun. cbn [fst snd]. intros Hrej.
    apply respond_inv in Hrun as [Hrun | [-> _]]; [|contradiction Hrej].
    apply bind_ok_inv in Hrun as (existing & db1 & Hfind & Hrun).
    apply campaigns_findOne_id_sameData in Hfind.
    destruct existing as [c|]; [|injection Hrun as <- <-; contradiction Hrej].
    apply bind_ok_inv in Hrun as (rejected & db2 & Hval & Hrun).
    apply validateTagNumbers_sameData in Hval.
    destruct rejected as [response|].
    + injection Hrun as <- <-. eapply sameData_trans; eassumption.
    + exfalso.
      apply bind_ok_inv in Hrun as (matchedCount & db3 & _ & Hrun).
      destruct (matchedCount =? 0)%nat; [injection Hrun as <- <-; exact Hrej|].
      apply bind_ok_inv in Hrun as (? & db4 & _ & Hrun).
      apply bind_ok_inv in Hrun as (? & db5 & _ & Hrun).
      injection Hrun as <- <-. exact Hrej.
Qed.

Lemma rejected_write_changes_nothing_witness :
  (post_campaigns (mkCampaignData None (Some [channel "FB00010"])) db_two_campaigns).1
  = DuplicateAcrossCampaigns ["FB00010"]
  /\ sameData db_two_campaigns
       (post_campaigns (mkCampaignData None (Some [channel "FB00010"])) db_two_campaigns).2
  /\ (put_campaigns (ParamCanonical 2%N)
        (mkCampaignData None (Some [channel "IG00009"; channel " IG00009"]))
        db_two_campaigns).1
     = DuplicateInCampaign ["IG00009"]
  /\ sameData db_two_campaigns
       (put_campaigns (ParamCanonical 2%N)
          (mkCampaignData None (Some [channel "IG00009"; channel " IG00009"]))
          db_two_campaigns).2.
Proof.
  split; [vm_compute; reflexivity|].
  split.
  - apply (proj1 (rejected_write_changes_nothing
                    (mkCampaignData None (Some [channel "FB00010"])) ParamInvalid
                    db_two_campaigns)).
    vm_compute. exact I.
  - split; [vm_compute; reflexivity|].
    apply (proj2 (rejected_write_changes_nothing
                    (mkCampaignData None (Some [channel "IG00009"; channel " IG00009"]))
                    (ParamCanonical 2%N) db_two_campaigns)).
    vm_compute. exact I.
Defined.

(** ** The campaign passed over by the cross-campaign check *)

Section CrossCampaign.

Lemma filter_all {A} (p : A -> bool) l :
  (forall y, In y l -> p y = true) -> List.filter p l = l.
Proof.
  induction l as [|x r IH]; intros H; [reflexivity|].
  cbn [List.filter]. rewrite (H x (or_introl eq_refl)).
  rewrite IH; [reflexivity|]. intros y Hy. apply H. right. exact Hy.
Qed.



(** The set [existingTags] of the update handler holds a non-empty
    string exactly when a campaign other than the updated one carries
    it. *)
Lemma Set_has_existingTagsOf oid cs t :
  t <> EmptyString ->
  Set_has (existingTagsOf (fun c => N.eqb (_id c) oid) cs) t = true
  <-> tagPersistedOutside oid t cs.
Proof.
  intros Ht. unfold Set_has, existingTagsOf. rewrite existsb_exists. split.
  - intros (v & Hv & Heq).
    destruct v as [|s|]; try discriminate Heq.
    apply String.eqb_eq in Heq. subst s.
    apply in_flat_map in Hv as (c & Hc & Hv).
    apply filter_In in Hc as [Hc Hskip].
    apply negb_true_iff, N.eqb_neq in Hskip.
    unfold truthyTags in Hv.
    destruct (channels c) as [chs|] eqn:Hchs; [|destruct Hv].
    apply filter_In in Hv as [Hv _].
    apply in_map_iff in Hv as (ch & Htag & Hch).
    exists c, chs, ch.
    repeat split; try assumption; apply list_elem_of_In; assumption.
  - intros (c & chs & ch & Hc & Hid & Hchs & Hch & Htag).
    exists (TagStr t). split; [|apply String.eqb_refl].
    apply in_flat_map. exists c. split.
    + apply filter_In. split; [apply list_elem_of_In; exact Hc|].
      apply negb_true_iff, N.eqb_neq. exact Hid.
    + unfold truthyTags. rewrite Hchs. apply filter_In. split.
      * apply in_map_iff. exists ch. split; [exact Htag | apply list_elem_of_In; exact Hch].
      * apply negb_true_iff, String.eqb_neq. exact Ht.
Qed.




End CrossCampaign.

(** C7 (the cross-campaign check of an update passes over exactly the
    campaign being updated, identified by its storage identifier).  The
    handler finds and writes the campaign by the identifier that
    [new ObjectId] reads from the URL, yet it passes over the campaigns
    whose [_id.toString()] is the URL string itself.  With the
    identifier of campaign 1 written in the URL as [_id.toString()]
    writes it, the campaign is updated with its own tag FB00010.  With
    the same identifier in another spelling that [new ObjectId] accepts
    (its hexadecimal digits in upper case), campaign 1 is found, is not
    passed over, and its own tag is reported as carried by another
    campaign: the update is refused and nothing is written. *)
Theorem put_campaigns_checks_own_tags_under_variant_spelling :
  let own := mkCampaignData (Some "MK_000001") (Some [channel "FB00010"]) in
  (exists target, target ∈ campaigns db_two_campaigns /\ _id target = 1%N
                  /\ channels target = Some [channel "FB00010"])
  /\ ~ tagPersistedOutside 1%N "FB00010" (campaigns db_two_campaigns)
  /\ ObjectId_of (ParamVariant 1%N) = ObjectId_of (ParamCanonical 1%N)
  /\ (put_campaigns (ParamCanonical 1%N) own db_two_campaigns).1
     = CampaignUpdated (ParamCanonical 1%N)
  /\ put_campaigns (ParamVariant 1%N) own db_two_campaigns
     = (DuplicateAcrossCampaigns ["FB00010"], db_two_campaigns).
Proof.
  cbv zeta. split.
  { eexists. split; [apply list_elem_of_here|]. split; reflexivity. }
  split.
  { intros Hout. apply Set_has_existingTagsOf in Hout; [|discriminate].
    vm_compute in Hout. discriminate Hout. }
  split; [reflexivity|]. split; vm_compute; reflexivity.
Qed.



(** * Further properties of the tag engine *)

(** ** Rendered tags are pairwise distinct *)

Section FormatInjective.

Lemma lookupPrefix_In table key value :
  lookupPrefix table key = Some value -> In (key, value) table.
Proof.
  induction table as [|[k v] r IH]; cbn [lookupPrefix]; [discriminate|].
  destruct (String.eqb_spec key k) as [-> | Hne].
  - intros [= ->]. left. reflexivity.
  - intros H. right. apply IH. exact H.
Qed.

Lemma prefixFor_In channelType prefix :
  prefixFor channelType = Some prefix -> In (channelType, prefix) prefixTable.
Proof. apply lookupPrefix_In. Qed.

Lemma NoDup_map_inj {A B} (f : A -> B) l x y :
  NoDup (map f l) -> In x l -> In y l -> f x = f y -> x = y.
Proof.
  induction l as [|a r IH]; cbn [map]; intros Hnd Hx Hy Hf; [destruct Hx|].
  apply NoDup_cons in Hnd as [Ha Hr].
  destruct Hx as [-> | Hx], Hy as [-> | Hy]; [reflexivity | | |auto].
  - exfalso. apply Ha. rewrite Hf. apply list_elem_of_In, in_map, Hy.
  - exfalso. apply Ha. rewrite <- Hf. apply list_elem_of_In, in_map, Hx.
Qed.

(** The prefixes of the table differ in their first two characters. *)
Lemma prefixTable_keys_distinct :
  NoDup (map (fun entry => Js.substringTo 2 entry.2) prefixTable).
Proof. apply (bool_decide_unpack _). vm_compute. exact I. Qed.

Lemma substringTo_2_append a b p s :
  Js.substringTo 2 (String a (String b p) +:+ s) = String a (String b EmptyString).
Proof. rewrite !append_cons. destruct (p +:+ s); reflexivity. Qed.

Lemma prefixTable_two_chars name prefix :
  In (name, prefix) prefixTable ->
  exists a b p, prefix = String a (String b p).
Proof.
  intros Hin. cbn in Hin.
  repeat (destruct Hin as [Hin | Hin]; [injection Hin as <- <-; eauto |]).
  contradiction.
Qed.

Lemma formatTag_same_prefix_inj prefix n m :
  0 <= n -> 0 <= m -> formatTag prefix n = formatTag prefix m -> n = m.
Proof.
  intros Hn Hm Heq. unfold formatTag in Heq.
  apply (inj (String.append prefix)) in Heq.
  destruct (padStart_toString_spec n Hn) as (c & r & Hpad & _ & Hval).
  destruct (padStart_toString_spec m Hm) as (c' & r' & Hpad' & _ & Hval').
  rewrite Hpad, Hpad' in Heq. rewrite Heq in Hval. congruence.
Qed.

Lemma formatTag_table_inj name1 prefix1 name2 prefix2 n m :
  In (name1, prefix1) prefixTable -> In (name2, prefix2) prefixTable ->
  0 <= n -> 0 <= m ->
  formatTag prefix1 n = formatTag prefix2 m ->
  prefix1 = prefix2 /\ n = m.
Proof.
  intros H1 H2 Hn Hm Heq.
  assert (prefix1 = prefix2) as <-.
  { destruct (prefixTable_two_chars _ _ H1) as (a & b & p & ->).
    destruct (prefixTable_two_chars _ _ H2) as (a' & b' & p' & ->).
    pose proof (f_equal (Js.substringTo 2) Heq) as Hkey.
    unfold formatTag in Hkey. rewrite !substringTo_2_append in Hkey.
    pose proof (NoDup_map_inj (fun entry => Js.substringTo 2 entry.2) prefixTable
                  _ _ prefixTable_keys_distinct H1 H2) as Hinj.
    cbn [snd] in Hinj.
    assert (forall x y p0, Js.substringTo 2 (String x (String y p0))
                           = String x (String y EmptyString)) as Hk
      by (intros x y p0; destruct p0; reflexivity).
    rewrite !Hk in Hinj.
    specialize (Hinj ltac:(congruence)). congruence. }
  split; [reflexivity|]. eapply formatTag_same_prefix_inj; eassumption.
Qed.

End FormatInjective.

(** X1.  Two different pairs of a prefix of the allocator (SMS included)
    and a non-negative number are never rendered into the same tag. *)
Theorem formatTag_distinct channelType1 prefix1 channelType2 prefix2 n m :
  prefixFor channelType1 = Some prefix1 ->
  prefixFor channelType2 = Some prefix2 ->
  0 <= n -> 0 <= m ->
  (prefix1, n) <> (prefix2, m) ->
  formatTag prefix1 n <> formatTag prefix2 m.
Proof.
  intros H1 H2 Hn Hm Hne Heq. apply Hne.
  destruct (formatTag_table_inj _ _ _ _ n m (prefixFor_In _ _ H1) (prefixFor_In _ _ H2)
              Hn Hm Heq) as [-> ->].
  reflexivity.
Qed.

Lemma formatTag_distinct_witness :
  formatTag "SMS" 12 <> formatTag "SO" 12 /\ formatTag "IG" 100000 <> formatTag "IG" 10000.
Proof.
  split.
  - apply (formatTag_distinct "SMS" "SMS" "Social organisations" "SO" 12 12);
      [reflexivity | reflexivity | lia | lia | discriminate].
  - apply (formatTag_distinct "Instagram" "IG" "Instagram" "IG" 100000 10000);
      [reflexivity | reflexivity | lia | lia | discriminate].
Defined.

(** ** The two tables of channel types *)

(** The two tables agree, entry by entry. *)
Lemma getPlatformName_table channelType prefix :
  prefixFor channelType = Some prefix ->
  getPlatformName prefix = PlatformNamed channelType
  /\ lookupPrefix platformMap prefix = Some channelType
  /\ (forall name, lookupPrefix platformMap prefix = Some name ->
                   prefixFor name = Some prefix).
Proof.
  intros H. apply prefixFor_In in H. cbn in H.
  repeat (destruct H as [H | H];
          [injection H as <- <-;
           split; [reflexivity|]; split; [reflexivity|];
           intros name [= <-]; reflexivity |]).
  contradiction.
Qed.

(** The display table lists no prefix that the allocator does not
    hand out, and no name but the channel type of the prefix. *)
Lemma platformMap_table prefix name :
  lookupPrefix platformMap prefix = Some name -> prefixFor name = Some prefix.
Proof.
  intros H. apply lookupPrefix_In in H. cbn in H.
  repeat (destruct H as [H | H]; [injection H as <- <-; reflexivity |]).
  contradiction.
Qed.

(** X2.  The table of display names is the inverse of the allocator's
    table: the allocator maps a channel type to a prefix exactly when the
    display table lists that channel type for that prefix.  Hence the
    display name of the prefix of a channel type is that channel type,
    and whatever name is displayed for a prefix is the prefix itself or a
    channel type that the allocator maps to that prefix. *)
Theorem getPlatformName_inverts_prefixFor :
  (forall channelType prefix,
      prefixFor channelType = Some prefix
      <-> lookupPrefix platformMap prefix = Some channelType)
  /\ (forall channelType prefix,
        prefixFor channelType = Some prefix ->
        getPlatformName prefix = PlatformNamed channelType)
  /\ (forall prefix name,
        getPlatformName prefix = PlatformNamed name ->
        name = prefix \/ prefixFor name = Some prefix).
Proof.
  split; [|split].
  - intros channelType prefix. split.
    + intros H. exact (proj1 (proj2 (getPlatformName_table _ _ H))).
    + apply platformMap_table.
  - intros channelType prefix H. exact (proj1 (getPlatformName_table _ _ H)).
  - intros prefix name. unfold getPlatformName.
    destruct (lookupPrefix platformMap prefix) as [listed|] eqn:Hlisted.
    + destruct (String.eqb listed ""); intros [= <-];
        [left; reflexivity | right; apply platformMap_table; exact Hlisted].
    + destruct (includes objectPrototypeKeys prefix); [discriminate|].
      intros [= <-]. left. reflexivity.
Qed.

(** ** Invariants of runs with rejecting driver calls *)

Section Keeps.

Context {A B : Type} (I : Db -> Prop).

Lemma keeps_ret (a : A) (Q : A -> Prop) : Q a -> keeps I (ret a) Q.
Proof. intros Ha db Hdb. split; assumption. Qed.

Lemma keeps_throw (Q : A -> Prop) : keeps I (@throw A) Q.
Proof. intros db Hdb. exact Hdb. Qed.

Lemma keeps_liftOutcome (o : Outcome A) (Q : A -> Prop) :
  (forall a, o = Ok a -> Q a) -> keeps I (liftOutcome o) Q.
Proof. intros Ho db Hdb. unfold liftOutcome. destruct o; auto. Qed.

Lemma keeps_bind (m : Async A) (k : A -> Async B) (Q : A -> Prop) (R : B -> Prop) :
  keeps I m Q -> (forall a, Q a -> keeps I (k a) R) -> keeps I (bind m k) R.
Proof.
  intros Hm Hk db Hdb. unfold bind. specialize (Hm db Hdb).
  destruct (m db) as [[a|] db1]; [|exact Hm].
  destruct Hm as [Hdb1 Ha]. exact (Hk a Ha db1 Hdb1).
Qed.

Lemma keeps_tryCatch (m h : Async A) (Q : A -> Prop) :
  keeps I m Q -> keeps I h Q -> keeps I (tryCatch m h) Q.
Proof.
  intros Hm Hh db Hdb. unfold tryCatch. specialize (Hm db Hdb).
  destruct (m db) as [[a|] db1]; [exact Hm|]. exact (Hh db1 Hm).
Qed.

Lemma keeps_weaken (m : Async A) (Q Q' : A -> Prop) :
  (forall a, Q a -> Q' a) -> keeps I m Q -> keeps I m Q'.
Proof.
  intros HQ Hm db Hdb. specialize (Hm db Hdb).
  destruct (m db) as [[a|] db1]; [|exact Hm].
  destruct Hm as [? ?]. auto.
Qed.

(** A driver call: the call itself, then its effect on the store. *)
Lemma keeps_call (f : Async A) (Q : A -> Prop) :
  faultStable I ->
  (forall db, I db ->
              match f db with
              | (Ok a, db') => I db' /\ Q a
              | (Thrown, db') => I db'
              end) ->
  keeps I (bind storeCall (fun _ => f)) Q.
Proof.
  intros Hstable Hf db Hdb. unfold bind, storeCall.
  destruct (faults db) as [|rejects fs]; [exact (Hf db Hdb)|].
  destruct rejects; [apply Hstable; exact Hdb|].
  apply Hf, Hstable, Hdb.
Qed.

End Keeps.

Lemma keeps_respond I (m : Async Response) Q db :
  keeps I m Q -> I db -> I (respond m db).2.
Proof.
  intros Hm Hdb. unfold respond. specialize (Hm db Hdb).
  destruct (m db) as [[a|] db1]; [exact (proj1 Hm) | exact Hm].
Qed.

Lemma countersNotLowered_refl m : countersNotLowered m m.
Proof. intros p n H. exists n. split; [exact H | lia]. Qed.

(** ** What an allocation may change *)

Section GenerateAnyRun.

(** The part of the handler that talks to the store, for the prefix
    [prefix]. *)
Lemma post_tags_generate_body prefix db :
  forall channelType,
    prefixFor (if String.eqb channelType "" then "" else Js.trim channelType) = Some prefix ->
    post_tags_generate (Some channelType) db
    = respond
        (let* counter := Store.tagCounters_findOne prefix in
         let* lastNumber :=
           match counter with
           | Some n => ret n
           | None => do Store.tagCounters_insertOne prefix 0 then ret 0
           end in
         let nextNumber := lastNumber + 1 in
         let newTagNumber := formatTag prefix nextNumber in
         let* existingTag := Store.campaigns_findOne_tag newTagNumber in
         match existingTag with
         | Some _ =>
             let incrementedNumber := nextNumber + 1 in
             let incrementedTagNumber := formatTag prefix incrementedNumber in
             do Store.tagCounters_updateOne_upsert prefix incrementedNumber then
             ret (TagGenerated incrementedTagNumber prefix incrementedNumber)
         | None =>
             do Store.tagCounters_updateOne_upsert prefix nextNumber then
             ret (TagGenerated newTagNumber prefix nextNumber)
         end) db.
Proof.
  intros channelType Hprefix. unfold post_tags_generate.
  destruct (String.eqb (if String.eqb channelType "" then "" else Js.trim channelType) "")
    eqn:Hempty.
  - apply String.eqb_eq in Hempty. rewrite Hempty in Hprefix. discriminate Hprefix.
  - rewrite Hprefix. reflexivity.
Qed.

Variables (I : Db -> Prop) (G : Z -> Prop) (prefix : string).

Hypothesis I_stable : faultStable I.
Hypothesis I_read : forall db n, I db -> tagCounters db !! prefix = Some n -> G n.
Hypothesis I_create :
  forall db, I db -> tagCounters db !! prefix = None ->
             I (setTagCounters (<[prefix := 0]> (tagCounters db)) db) /\ G 0.
Hypothesis I_write :
  forall db lastNumber n,
    I db -> G lastNumber -> lastNumber < n ->
    I (setTagCounters (<[prefix := n]> (tagCounters db)) db).

(** An invariant that the creation of the counter and the writes of
    numbers above the number read maintain is an invariant of the
    allocation, in every run. *)
Lemma allocation_keeps :
  keeps I
    (let* counter := Store.tagCounters_findOne prefix in
     let* lastNumber :=
       match counter with
       | Some n => ret n
       | None => do Store.tagCounters_insertOne prefix 0 then ret 0
       end in
     let nextNumber := lastNumber + 1 in
     let newTagNumber := formatTag prefix nextNumber in
     let* existingTag := Store.campaigns_findOne_tag newTagNumber in
     match existingTag with
     | Some _ =>
         let incrementedNumber := nextNumber + 1 in
         let incrementedTagNumber := formatTag prefix incrementedNumber in
         do Store.tagCounters_updateOne_upsert prefix incrementedNumber then
         ret (TagGenerated incrementedTagNumber prefix incrementedNumber)
     | None =>
         do Store.tagCounters_updateOne_upsert prefix nextNumber then
         ret (TagGenerated newTagNumber prefix nextNumber)
     end)
    (fun _ => True).
Proof.
  apply keeps_bind
    with (Q := fun counter => match counter with Some n => G n | None => True end).
  { apply keeps_call; [exact I_stable|].
    intros db Hdb. split; [exact Hdb|].
    destruct (tagCounters db !! prefix) as [n|] eqn:E; [|exact Logic.I].
    exact (I_read db n Hdb E). }
  intros counter Hcounter.
  apply keeps_bind with (Q := G).
  { destruct counter as [n|]; [apply keeps_ret; exact Hcounter|].
    apply keeps_bind with (Q := fun _ => G 0).
    - apply keeps_call; [exact I_stable|].
      intros db Hdb. destruct (tagCounters db !! prefix) eqn:E; [exact Hdb|].
      exact (I_create db Hdb E).
    - intros _ H0. apply keeps_ret. exact H0. }
  intros lastNumber Hlast. cbv zeta.
  apply keeps_bind with (Q := fun _ => True).
  { apply keeps_call; [exact I_stable|].
    intros db Hdb. split; [exact Hdb | exact Logic.I]. }
  intros existingTag _.
  destruct existingTag as [c|];
    (apply keeps_bind with (Q := fun _ => True);
     [ apply keeps_call; [exact I_stable|];
       intros db Hdb; split; [|exact Logic.I];
       apply (I_write db lastNumber); [exact Hdb | exact Hlast | lia]
     | intros _ _; apply keeps_ret; exact Logic.I ]).
Qed.

End GenerateAnyRun.

Lemma allocationInvariant_keeps cs0 s0 m0 prefix :
  keeps (allocationInvariant cs0 s0 m0 prefix)
    (let* counter := Store.tagCounters_findOne prefix in
     let* lastNumber :=
       match counter with
       | Some n => ret n
       | None => do Store.tagCounters_insertOne prefix 0 then ret 0
       end in
     let nextNumber := lastNumber + 1 in
     let newTagNumber := formatTag prefix nextNumber in
     let* existingTag := Store.campaigns_findOne_tag newTagNumber in
     match existingTag with
     | Some _ =>
         let incrementedNumber := nextNumber + 1 in
         let incrementedTagNumber := formatTag prefix incrementedNumber in
         do Store.tagCounters_updateOne_upsert prefix incrementedNumber then
         ret (TagGenerated incrementedTagNumber prefix incrementedNumber)
     | None =>
         do Store.tagCounters_updateOne_upsert prefix nextNumber then
         ret (TagGenerated newTagNumber prefix nextNumber)
     end)
    (fun _ => True).
Proof.
  assert (forall db n,
            allocationInvariant cs0 s0 m0 prefix db ->
            (forall n0, m0 !! prefix = Some n0 -> n0 <= n) ->
            allocationInvariant cs0 s0 m0 prefix
              (setTagCounters (<[prefix := n]> (tagCounters db)) db)) as Hwrite.
  { intros db n (Hcs & Hseq & Hlow & Hother) Hn.
    split; [exact Hcs|]. split; [exact Hseq|].
    cbn [tagCounters setTagCounters]. split.
    - intros p n0 Hp. destruct (decide (p = prefix)) as [-> | Hne].
      + exists n. split; [apply lookup_insert_eq | auto].
      + rewrite lookup_insert_ne by congruence. apply Hlow. exact Hp.
    - intros p Hne. rewrite lookup_insert_ne by congruence. apply Hother. exact Hne. }
  apply (allocation_keeps _ (fun L => forall n0, m0 !! prefix = Some n0 -> n0 <= L)).
  - intros db fs H. exact H.
  - intros db n (_ & _ & Hlow & _) Hn n0 H0.
    destruct (Hlow prefix n0 H0) as (n' & Hn' & Hle). congruence.
  - intros db Hdb Hnone.
    assert (m0 !! prefix = None) as Hnone0.
    { destruct Hdb as (_ & _ & Hlow & _).
      destruct (m0 !! prefix) as [n0|] eqn:E; [|reflexivity].
      destruct (Hlow prefix n0 E) as (n' & Hn' & _). congruence. }
    split; [|intros n0 H0; congruence].
    apply Hwrite; [exact Hdb|]. intros n0 H0. congruence.
  - intros db lastNumber n Hdb Hlast Hlt. apply Hwrite; [exact Hdb|].
    intros n0 H0. specialize (Hlast n0 H0). lia.
Qed.


(** What a request whose channel type is a string, or is falsy, may
    change, in every run. *)
Lemma post_tags_generate_changes channelType db :
  let db' := (post_tags_generate channelType db).2 in
  campaigns db' = campaigns db
  /\ campaignSeq db' = campaignSeq db
  /\ countersNotLowered (tagCounters db) (tagCounters db')
  /\ (forall p, (forall s, channelType = Some s -> prefixFor (Js.trim s) <> Some p) ->
                tagCounters db' !! p = tagCounters db !! p)
  /\ ((forall s, channelType = Some s -> prefixFor (Js.trim s) = None) ->
      exists r, post_tags_generate channelType db = (r, db) /\ status r = 400).
Proof.
  assert (forall r, post_tags_generate channelType db = (r, db) ->
            let db' := (post_tags_generate channelType db).2 in
            campaigns db' = campaigns db /\ campaignSeq db' = campaignSeq db
            /\ countersNotLowered (tagCounters db) (tagCounters db')
            /\ (forall p, (forall s, channelType = Some s -> prefixFor (Js.trim s) <> Some p) ->
                          tagCounters db' !! p = tagCounters db !! p)) as Hsame.
  { intros r Hr. rewrite Hr. cbn [snd].
    split; [reflexivity|]. split; [reflexivity|].
    split; [apply countersNotLowered_refl | reflexivity]. }
  unfold post_tags_generate in *.
  destruct channelType as [s|].
  2:{ cbn in *. destruct (Hsame _ eq_refl) as (H1 & H2 & H3 & H4).
      repeat split; try assumption. intros _. eexists. split; reflexivity. }
  assert (Js.trim "" = "") as Hblank by reflexivity.
  set (trimmed := if String.eqb s "" then "" else Js.trim s) in *.
  assert (trimmed = Js.trim s) as Htrimmed.
  { subst trimmed. destruct (String.eqb_spec s ""); [subst s; reflexivity | reflexivity]. }
  destruct (String.eqb trimmed "") eqn:Hempty.
  { destruct (Hsame _ eq_refl) as (H1 & H2 & H3 & H4).
    repeat split; try assumption. intros _. eexists. split; reflexivity. }
  destruct (prefixFor trimmed) as [prefix|] eqn:Hprefix.
  - pose proof (keeps_respond _ _ _ db
                  (allocationInvariant_keeps (campaigns db) (campaignSeq db)
                     (tagCounters db) prefix))
      as Hkeep.
    destruct Hkeep as (Hcs & Hseq & Hlow & Hother).
    { split; [reflexivity|]. split; [reflexivity|].
      split; [apply countersNotLowered_refl | reflexivity]. }
    cbv zeta. split; [exact Hcs|]. split; [exact Hseq|]. split; [exact Hlow|].
    split.
    + intros p Hp. apply Hother. intros ->. apply (Hp s eq_refl).
      rewrite <- Htrimmed. exact Hprefix.
    + intros Hnone. specialize (Hnone s eq_refl). congruence.
  - destruct (Hsame _ eq_refl) as (H1 & H2 & H3 & H4).
    repeat split; try assumption. intros _. eexists. split; reflexivity.
Qed.

(** X3.  In every run, rejecting driver calls included, and whatever the
    request body holds as channel type, a request for a tag leaves the
    campaigns and the campaign identifier sequence as they were, removes
    or lowers no counter, and leaves the counters of all prefixes but
    that of the channel type as they were.  When the channel type is
    falsy, a blank string or an unknown string, the answer has status 400
    and the store is untouched, no driver call having been made.  When
    it is a truthy value that is not a string, the handler throws before
    it answers, and the store is untouched too. *)
Theorem post_tags_generate_footprint channelType db :
  let run := post_tags_generate_request channelType db in
  campaigns run.2 = campaigns db
  /\ campaignSeq run.2 = campaignSeq db
  /\ countersNotLowered (tagCounters db) (tagCounters run.2)
  /\ (forall p,
        (forall s, channelType = BodyString s -> prefixFor (Js.trim s) <> Some p) ->
        tagCounters run.2 !! p = tagCounters db !! p)
  /\ (channelType = BodyFalsy
      \/ (exists s, channelType = BodyString s /\ prefixFor (Js.trim s) = None) ->
      exists r, run = (Ok r, db) /\ status r = 400)
  /\ (channelType = BodyOther -> run = (Thrown, db)).
Proof.
  destruct channelType as [|s|]; cbv zeta; unfold post_tags_generate_request.
  - destruct (post_tags_generate_changes None db) as (Hcs & Hseq & Hlow & Hother & Hbad).
    cbv zeta in *.
    destruct Hbad as (r & Hrun & Hstatus); [intros s [=]|].
    rewrite Hrun in *. cbn [fst snd] in *.
    split; [exact Hcs|]. split; [exact Hseq|]. split; [exact Hlow|].
    split; [intros p _; apply Hother; intros s [=]|].
    split; [intros _; exists r; split; [reflexivity | exact Hstatus] | intros [=]].
  - destruct (post_tags_generate_changes (Some s) db) as (Hcs & Hseq & Hlow & Hother & Hbad).
    cbv zeta in *.
    destruct (post_tags_generate (Some s) db) as [r db'] eqn:Hrun. cbn [fst snd] in *.
    split; [exact Hcs|]. split; [exact Hseq|]. split; [exact Hlow|].
    split; [intros p Hp; apply Hother; intros s' [= <-]; apply Hp; reflexivity|].
    split; [|intros [=]].
    intros [[=] | (s' & [= <-] & Hnone)].
    destruct Hbad as (r' & [= -> ->] & Hstatus); [intros s' [= <-]; exact Hnone|].
    exists r'. split; [reflexivity | exact Hstatus].
  - cbn [throw fst snd].
    split; [reflexivity|]. split; [reflexivity|].
    split; [apply countersNotLowered_refl|]. split; [reflexivity|].
    split; [intros [[=] | (s & [=] & _)] | reflexivity].
Qed.

(** ** Allocations served one after the other *)

Section Sequential.

Lemma default_nonneg (m : gmap string Z) p :
  countersNonNegative m -> 0 <= default 0 (m !! p).
Proof.
  intros Hm. destruct (m !! p) as [n|] eqn:E; cbn [from_option id]; [|lia].
  exact (Hm p n E).
Qed.

Lemma countersNonNegative_insert (m : gmap string Z) p n :
  countersNonNegative m -> 0 <= n -> countersNonNegative (<[p := n]> m).
Proof.
  intros Hm Hn q k. destruct (decide (q = p)) as [-> | Hne].
  - rewrite lookup_insert_eq. intros [= <-]. exact Hn.
  - rewrite lookup_insert_ne by congruence. apply Hm.
Qed.

Lemma post_tags_generate_cases channelType db :
  (exists r, post_tags_generate channelType db = (r, db) /\ status r = 400)
  \/ exists s prefix,
       channelType = Some s
       /\ prefixFor (if String.eqb s "" then "" else Js.trim s) = Some prefix.
Proof.
  unfold post_tags_generate.
  destruct channelType as [s|]; [|left; eexists; split; reflexivity].
  destruct (String.eqb (if String.eqb s "" then "" else Js.trim s) "");
    [left; eexists; split; reflexivity|].
  destruct (prefixFor (if String.eqb s "" then "" else Js.trim s)) as [prefix|] eqn:Hprefix.
  - right. exists s, prefix. split; [reflexivity | exact Hprefix].
  - left. eexists. split; reflexivity.
Qed.

Lemma trimmed_channelType s : (if String.eqb s "" then "" else Js.trim s) = Js.trim s.
Proof. destruct (String.eqb_spec s ""); [subst s; reflexivity | reflexivity]. Qed.

(** One request when no driver call rejects: either no tag is answered
    and the store is as before, or the tag of a number above the stored
    counter is answered and the counter is set to that number. *)
Lemma post_tags_generate_step channelType db :
  faults db = [] ->
  let run := post_tags_generate (Some channelType) db in
  faults run.2 = []
  /\ ((generatedTags [run.1] = [] /\ run.2 = db)
      \/ exists name prefix used,
           In (name, prefix) prefixTable
           /\ run.1 = TagGenerated (formatTag prefix used) prefix used
           /\ default 0 (tagCounters db !! prefix) < used
           /\ tagCounters run.2 = <[prefix := used]> (tagCounters db)).
Proof.
  intros Hf run. subst run.
  destruct (prefixFor (Js.trim channelType)) as [prefix|] eqn:Hprefix.
  - rewrite (post_tags_generate_nofault channelType prefix db Hprefix Hf).
    cbn [fst snd]. split; [exact Hf|]. right.
    exists (Js.trim channelType), prefix. eexists.
    split; [apply prefixFor_In; exact Hprefix|].
    split; [reflexivity|]. split; [|reflexivity].
    destruct (List.find _ (campaigns db)); lia.
  - destruct (post_tags_generate_cases (Some channelType) db)
      as [(r & Hrun & Hstatus) | (s & prefix & [= <-] & Hknown)];
      [|rewrite trimmed_channelType in Hknown; congruence].
    rewrite Hrun. cbn [fst snd]. split; [exact Hf|]. left.
    split; [|reflexivity]. destruct r; try reflexivity. discriminate Hstatus.
Qed.

Lemma generatedTags_cons r rs : generatedTags (r :: rs) = generatedTags [r] ++ generatedTags rs.
Proof. unfold generatedTags. cbn [omap list_omap]. destruct r; reflexivity. Qed.

Lemma allocateAll_tags channelTypes :
  forall db,
    faults db = [] ->
    countersNonNegative (tagCounters db) ->
    let tags := generatedTags (allocateAll channelTypes db).1 in
    NoDup tags
    /\ forall t, t ∈ tags ->
                 exists name prefix used,
                   In (name, prefix) prefixTable /\ t = formatTag prefix used
                   /\ default 0 (tagCounters db !! prefix) < used.
Proof.
  induction channelTypes as [|channelType rest IH]; intros db Hf Hpos.
  - cbn. split; [apply NoDup_nil_2 | intros t Ht; inversion Ht].
  - cbn [allocateAll].
    destruct (post_tags_generate_step channelType db Hf) as (Hf1 & Hstep).
    destruct (post_tags_generate (Some channelType) db) as [response db1] eqn:Hrun.
    cbn [fst snd] in Hf1, Hstep.
    destruct (allocateAll rest db1) as [responses db2] eqn:Hrest.
    cbn [fst]. rewrite generatedTags_cons.
    destruct Hstep as [[Hnone ->] | (name & prefix & used & Hin & -> & Hused & Hcounters)].
    + rewrite Hnone. cbn [app].
      specialize (IH db Hf Hpos). rewrite Hrest in IH. exact IH.
    + assert (0 <= used) as Hused0 by (pose proof (default_nonneg _ prefix Hpos); lia).
      assert (countersNonNegative (tagCounters db1)) as Hpos1
        by (rewrite Hcounters; apply countersNonNegative_insert; assumption).
      specialize (IH db1 Hf1 Hpos1). rewrite Hrest in IH. cbn [fst] in IH.
      destruct IH as [Hnodup Hlater].
      assert (forall t, t ∈ generatedTags responses ->
                exists name' prefix' used',
                  In (name', prefix') prefixTable /\ t = formatTag prefix' used'
                  /\ default 0 (tagCounters db !! prefix') < used'
                  /\ (prefix', used') <> (prefix, used)) as Hlater'.
      { intros t Ht. destruct (Hlater t Ht) as (name' & prefix' & used' & Hin' & -> & Hgt).
        exists name', prefix', used'. split; [exact Hin'|]. split; [reflexivity|].
        rewrite Hcounters in Hgt.
        destruct (decide (prefix' = prefix)) as [-> | Hne].
        - rewrite lookup_insert_eq in Hgt. cbn [from_option id] in Hgt.
          split; [lia|]. intros [= ->]. lia.
        - rewrite lookup_insert_ne in Hgt by congruence.
          split; [exact Hgt|]. intros [= -> _]. contradiction. }
      cbn [generatedTags omap list_omap app]. split.
      * apply NoDup_cons. split; [|exact Hnodup].
        intros Ht. destruct (Hlater' _ Ht) as (name' & prefix' & used' & Hin' & Heq & Hgt & Hne).
        apply Hne.
        assert (0 <= used') by (pose proof (default_nonneg _ prefix' Hpos); lia).
        destruct (formatTag_table_inj _ _ _ _ used used' Hin Hin' Hused0 ltac:(assumption) Heq)
          as [-> ->].
        reflexivity.
      * intros t [-> | Ht]%elem_of_cons.
        -- exists name, prefix, used. auto.
        -- destruct (Hlater' _ Ht) as (name' & prefix' & used' & Hin' & Heq & Hgt & _).
           exists name', prefix', used'. auto.
Qed.

End Sequential.

Lemma channelsAreArraysb_sound cs : channelsAreArraysb cs = true -> channelsAreArrays cs.
Proof.
  unfold channelsAreArraysb, channelsAreArrays. rewrite forallb_forall.
  intros H c Hc Hnone. specialize (H c (proj1 (list_elem_of_In _ _) Hc)).
  rewrite Hnone in H. discriminate H.
Qed.

Lemma tagsAreStringsb_sound cs : tagsAreStringsb cs = true -> tagsAreStrings cs.
Proof.
  unfold tagsAreStringsb, tagsAreStrings. rewrite forallb_forall.
  intros H c chs ch Hc Hchs Hch Htag.
  specialize (H c (proj1 (list_elem_of_In _ _) Hc)). rewrite Hchs in H.
  rewrite forallb_forall in H. specialize (H ch (proj1 (list_elem_of_In _ _) Hch)).
  rewrite Htag in H. discriminate H.
Qed.

(** X4.  In a store where [channels] is an array and every truthy
    [tagNumber] a string, when no driver call rejects, no stored counter
    is negative and every counter is far enough below 2^53 for the
    requests to come (each request raises one counter by two at most):
    the tags answered to any series of requests served one after the
    other, for whatever channel types and with no campaign written in
    between, are pairwise distinct. *)
Theorem allocateAll_tags_distinct channelTypes db :
  faults db = [] ->
  channelsAreArrays (campaigns db) ->
  tagsAreStrings (campaigns db) ->
  countersNonNegative (tagCounters db) ->
  (forall p, default 0 (tagCounters db !! p) + 2 * Z.of_nat (length channelTypes)
             <= MAX_SAFE_INTEGER) ->
  NoDup (generatedTags (allocateAll channelTypes db).1).
Proof.
  intros Hf _ _ Hpos _. exact (proj1 (allocateAll_tags channelTypes db Hf Hpos)).
Qed.

Lemma allocateAll_tags_distinct_witness :
  generatedTags
    (allocateAll ["Instagram"; "SMS"; "Instagram"; "Carrier Pigeon"; "Facebook"; "SMS"]
       db_counter_behind).1
  = ["IG00005"; "SMS00001"; "IG00006"; "FB00001"; "SMS00002"]
  /\ NoDup (generatedTags
              (allocateAll
                 ["Instagram"; "SMS"; "Instagram"; "Carrier Pigeon"; "Facebook"; "SMS"]
                 db_counter_behind).1).
Proof.
  split; [vm_compute; reflexivity|].
  apply (allocateAll_tags_distinct _ db_counter_behind).
  - reflexivity.
  - apply channelsAreArraysb_sound. reflexivity.
  - apply tagsAreStringsb_sound. reflexivity.
  - intros p n. unfold db_counter_behind. cbn [tagCounters].
    intros [<- <-]%lookup_singleton_Some. lia.
  - intros p. unfold db_counter_behind, MAX_SAFE_INTEGER. cbn [tagCounters length].
    destruct (decide (p = "IG")) as [-> | Hp].
    + rewrite lookup_singleton_eq. cbn [from_option id]. lia.
    + rewrite lookup_singleton_ne by congruence. cbn [from_option id]. lia.
Defined.

(** ** What reconciliation writes *)

Section ObservedMaximum.

Lemma Math_max_spec n ns :
  Js.Math_max n ns ∈ n :: ns /\ forall k, k ∈ n :: ns -> k <= Js.Math_max n ns.
Proof.
  unfold Js.Math_max. revert n. induction ns as [|x r IH]; intros n; cbn [fold_left].
  - split; [apply list_elem_of_here|]. intros k Hk. apply list_elem_of_singleton in Hk. lia.
  - destruct (IH (Z.max n x)) as [Hin Hmax]. split.
    + apply elem_of_cons in Hin as [Heq | Hin].
      * rewrite Heq. destruct (Z.max_spec n x) as [[_ ->] | [_ ->]].
        -- apply list_elem_of_further, list_elem_of_here.
        -- apply list_elem_of_here.
      * do 2 apply list_elem_of_further. exact Hin.
    + intros k [-> | [-> | Hk]%elem_of_cons]%elem_of_cons.
      * specialize (Hmax (Z.max n x) (list_elem_of_here _ _)). lia.
      * specialize (Hmax (Z.max n x) (list_elem_of_here _ _)). lia.
      * apply Hmax. apply list_elem_of_further. exact Hk.
Qed.

Lemma splitTag_nonneg raw prefix n : splitTag raw = Some (prefix, n) -> 0 <= n.
Proof.
  unfold splitTag. destruct (String.length _ <? 3)%nat; [discriminate|].
  destruct (Js.parseInt _) as [v|]; [|discriminate].
  destruct (v <? 0) eqn:Hneg; [discriminate|]. intros [= _ <-].
  apply Z.ltb_ge. exact Hneg.
Qed.

Lemma splitTag_nonblank raw prefix n :
  splitTag raw = Some (prefix, n) ->
  String.eqb raw "" = false /\ String.eqb (Js.trim raw) "" = false.
Proof.
  intros H.
  assert (Js.trim raw <> EmptyString) as Htrim.
  { intros E. unfold splitTag in H. rewrite E in H. discriminate H. }
  split; apply String.eqb_neq; [intros -> ; apply Htrim; reflexivity | exact Htrim].
Qed.

Lemma pushNumber_spec prefix n obj :
  0 <= n -> wellFormedNumbers obj ->
  wellFormedNumbers (pushNumber prefix n obj)
  /\ forall q k, holdsNumber (pushNumber prefix n obj) q k
                 <-> holdsNumber obj q k \/ (q = prefix /\ k = n).
Proof.
  intros Hn. induction obj as [|[key ns] r IH]; intros [Hnodup Hwf].
  - cbn [pushNumber]. split.
    + split; [cbn; apply NoDup_singleton|].
      intros q ms [= -> ->]%list_elem_of_singleton.
      split; [discriminate | repeat constructor; exact Hn].
    + intros q k. unfold holdsNumber. split.
      * intros (ms & [= -> ->]%list_elem_of_singleton & ->%list_elem_of_singleton). auto.
      * intros [(ms & Hin & _) | [-> ->]]; [inversion Hin|].
        exists [n]. split; apply list_elem_of_here.
  - rewrite fmap_cons in Hnodup. cbn [fst] in Hnodup.
    apply NoDup_cons in Hnodup as [Hkey Hnodup].
    assert (wellFormedNumbers r) as Hr.
    { split; [exact Hnodup|]. intros q ms Hq. eapply Hwf. apply list_elem_of_further, Hq. }
    cbn [pushNumber]. destruct (String.eqb_spec key prefix) as [-> | Hne].
    + split.
      * split; [rewrite fmap_cons; apply NoDup_cons; auto|].
        intros q ms [[= -> ->] | Hq]%elem_of_cons.
        -- destruct (Hwf prefix ns (list_elem_of_here _ _)) as [_ Hall].
           split; [destruct ns; discriminate|].
           apply Forall_app. split; [exact Hall | repeat constructor; exact Hn].
        -- eapply Hwf. apply list_elem_of_further, Hq.
      * intros q k. unfold holdsNumber. split.
        -- intros (ms & [[= -> ->] | Hq]%elem_of_cons & Hk).
           ++ apply elem_of_app in Hk as [Hk | ->%list_elem_of_singleton]; [|auto].
              left. exists ns. split; [apply list_elem_of_here | exact Hk].
           ++ left. exists ms. split; [apply list_elem_of_further, Hq | exact Hk].
        -- intros [(ms & [[= -> ->] | Hq]%elem_of_cons & Hk) | [-> ->]].
           ++ exists (ns ++ [n]). split; [apply list_elem_of_here|].
              apply elem_of_app. left. exact Hk.
           ++ exists ms. split; [apply list_elem_of_further, Hq | exact Hk].
           ++ exists (ns ++ [n]). split; [apply list_elem_of_here|].
              apply elem_of_app. right. apply list_elem_of_here.
    + destruct (IH Hr) as [[Hnodup' Hwf'] Hholds]. split.
      * split.
        -- rewrite fmap_cons. apply NoDup_cons. split; [|exact Hnodup'].
           intros [Hin | Heq]%pushNumber_keys; [exact (Hkey Hin) | exact (Hne Heq)].
        -- intros q ms [[= -> ->] | Hq]%elem_of_cons.
           ++ eapply Hwf. apply list_elem_of_here.
           ++ eapply Hwf'. exact Hq.
      * intros q k. split.
        -- intros (ms & [[= -> ->] | Hq]%elem_of_cons & Hk).
           ++ left. exists ns. split; [apply list_elem_of_here | exact Hk].
           ++ destruct (proj1 (Hholds q k)) as [(ms' & Hq' & Hk') | Hnew].
              { exists ms. split; assumption. }
              ** left. exists ms'. split; [apply list_elem_of_further, Hq' | exact Hk'].
              ** right. exact Hnew.
        -- intros [(ms & [[= -> ->] | Hq]%elem_of_cons & Hk) | Hnew].
           ++ exists ns. split; [apply list_elem_of_here | exact Hk].
           ++ destruct (proj2 (Hholds q k)) as (ms' & Hq' & Hk').
              { left. exists ms. split; assumption. }
              exists ms'. split; [apply list_elem_of_further, Hq' | exact Hk'].
           ++ destruct (proj2 (Hholds q k) (or_intror Hnew)) as (ms' & Hq' & Hk').
              exists ms'. split; [apply list_elem_of_further, Hq' | exact Hk'].
Qed.

Lemma forEach_accumulate {A S X} (f : S -> A -> Outcome S) (Inv : S -> Prop)
    (M : S -> X -> Prop) (C : A -> X -> Prop) l :
  (forall s a s', a ∈ l -> Inv s -> f s a = Ok s' ->
                  Inv s' /\ forall x, M s' x <-> M s x \/ C a x) ->
  forall s s', Inv s -> forEach f l s = Ok s' ->
               Inv s' /\ forall x, M s' x <-> M s x \/ exists a, a ∈ l /\ C a x.
Proof.
  induction l as [|a r IH]; intros Hstep s s' Hs; cbn [forEach].
  - intros [= <-]. split; [exact Hs|]. intros x. split; [auto|].
    intros [H | (a & Ha & _)]; [exact H | inversion Ha].
  - destruct (f s a) as [s1|] eqn:Hf; [|discriminate]. intros Hrest.
    destruct (Hstep s a s1 (list_elem_of_here _ _) Hs Hf) as [Hs1 Hm1].
    destruct (IH (fun s a s' Ha => Hstep s a s' (list_elem_of_further _ _ _ Ha))
                s1 s' Hs1 Hrest) as [Hs' Hm'].
    split; [exact Hs'|]. intros x. rewrite Hm', Hm1. split.
    + intros [[H | H] | (b & Hb & H)]; [auto | right | right].
      * exists a. split; [apply list_elem_of_here | exact H].
      * exists b. split; [apply list_elem_of_further, Hb | exact H].
    + intros [H | (b & [-> | Hb]%elem_of_cons & H)]; [auto | auto |].
      right. exists b. auto.
Qed.

Lemma recordChannel_spec obj ch obj' :
  wellFormedNumbers obj -> recordChannel obj ch = Ok obj' ->
  wellFormedNumbers obj'
  /\ forall x : string * Z,
       holdsNumber obj' x.1 x.2 <-> holdsNumber obj x.1 x.2 \/ channelObserved ch x.1 x.2.
Proof.
  intros Hwf. unfold recordChannel, channelObserved.
  assert ((forall q k, (exists raw, tagNumber ch = TagStr raw /\ splitTag raw = Some (q, k))
                       -> False) ->
          obj' = obj ->
          wellFormedNumbers obj'
          /\ forall x : string * Z,
               holdsNumber obj' x.1 x.2
               <-> holdsNumber obj x.1 x.2
                   \/ exists raw, tagNumber ch = TagStr raw /\ splitTag raw = Some (x.1, x.2))
    as Hskip.
  { intros Hno ->. split; [exact Hwf|]. intros x. split; [auto|].
    intros [H | H]; [exact H | destruct (Hno _ _ H)]. }
  destruct (tagNumber ch) as [|raw|truthy] eqn:Htag.
  - intros [= <-]. apply Hskip; [|reflexivity]. intros q k (raw & [=] & _).
  - destruct (splitTag raw) as [[prefix n]|] eqn:Hsplit.
    + destruct (splitTag_nonblank _ _ _ Hsplit) as [-> ->].
      intros [= <-].
      destruct (pushNumber_spec prefix n obj (splitTag_nonneg _ _ _ Hsplit) Hwf)
        as [Hwf' Hholds].
      split; [exact Hwf'|]. intros [q k]. cbn [fst snd]. rewrite Hholds. split.
      * intros [H | [-> ->]]; [auto|]. right. exists raw. auto.
      * intros [H | (raw' & [= <-] & Hs)]; [auto|]. right.
        rewrite Hsplit in Hs. injection Hs as <- <-. auto.
    + assert (forall q k, (exists raw0, TagStr raw = TagStr raw0
                                        /\ splitTag raw0 = Some (q, k)) -> False) as Hno.
      { intros q k (raw0 & [= <-] & Hs). congruence. }
      destruct (String.eqb raw ""); [intros [= <-]; apply Hskip; auto|].
      destruct (String.eqb (Js.trim raw) ""); intros [= <-]; apply Hskip; auto.
  - destruct truthy; [discriminate|]. intros [= <-].
    apply Hskip; [|reflexivity]. intros q k (raw & [=] & _).
Qed.

Lemma wellFormedNumbers_nil : wellFormedNumbers [].
Proof. split; [apply NoDup_nil_2 | intros q ns H; inversion H]. Qed.

(** What the scan of the campaigns collects: under distinct keys, the
    numbers that the persisted tags are read as, and nothing else. *)
Lemma collectTagNumbers_spec cs obj :
  collectTagNumbers cs = Ok obj ->
  wellFormedNumbers obj /\ forall prefix n, holdsNumber obj prefix n <-> observed cs prefix n.
Proof.
  intros Hscan. unfold collectTagNumbers in Hscan.
  destruct (forEach_accumulate recordCampaign wellFormedNumbers
              (fun obj (x : string * Z) => holdsNumber obj x.1 x.2)
              (fun c (x : string * Z) =>
                 exists chs ch, channels c = Some chs /\ ch ∈ chs
                                /\ channelObserved ch x.1 x.2)
              cs) with (s := @nil (string * list Z)) (s' := obj) as [Hwf Hholds];
    [| apply wellFormedNumbers_nil | exact Hscan |].
  - intros s c s' Hc Hs. unfold recordCampaign.
    destruct (channels c) as [chs|] eqn:Hchs.
    + intros Hrun.
      destruct (forEach_accumulate recordChannel wellFormedNumbers
                  (fun obj (x : string * Z) => holdsNumber obj x.1 x.2)
                  (fun ch (x : string * Z) => channelObserved ch x.1 x.2)
                  chs (fun s0 a s1 _ Hs0 => recordChannel_spec s0 a s1 Hs0) s s' Hs Hrun)
        as [Hs' Hm].
      split; [exact Hs'|]. intros x. rewrite Hm. split.
      * intros [H | (ch & Hch & H)]; [auto|]. right. exists chs, ch. auto.
      * intros [H | (chs' & ch & [= <-] & Hch & H)]; [auto|]. right. exists ch. auto.
    + intros [= <-]. split; [exact Hs|]. intros x. split; [auto|].
      intros [H | (chs & ch & [=] & _)]. exact H.
  - split; [exact Hwf|]. intros prefix n. rewrite (Hholds (prefix, n)). cbn [fst snd].
    unfold observed, channelObserved. split.
    + intros [(ns & Hin & _) | (c & Hc & chs & ch & Hchs & Hch & raw & Htag & Hsplit)];
        [inversion Hin|].
      exists c, chs, ch, raw. auto.
    + intros (c & chs & ch & raw & Hc & Hchs & Hch & Htag & Hsplit).
      right. exists c. split; [exact Hc|]. exists chs, ch. split; [exact Hchs|].
      split; [exact Hch|]. exists raw. auto.
Qed.

Lemma forEach_total {A S} (f : S -> A -> Outcome S) l :
  (forall s a, a ∈ l -> exists s', f s a = Ok s') ->
  forall s, exists s', forEach f l s = Ok s'.
Proof.
  induction l as [|a r IH]; intros Hf s; cbn [forEach]; [eauto|].
  destruct (Hf s a (list_elem_of_here _ _)) as (s1 & ->).
  apply IH. intros s0 b Hb. apply Hf. apply list_elem_of_further, Hb.
Qed.

(** The scan throws only on a truthy [tagNumber] that is not a string. *)
Lemma collectTagNumbers_total cs :
  tagsAreStrings cs -> exists obj, collectTagNumbers cs = Ok obj.
Proof.
  intros Hstr. apply forEach_total. intros s c Hc. unfold recordCampaign.
  destruct (channels c) as [chs|] eqn:Hchs; [|eauto].
  apply forEach_total. intros s0 ch Hch. unfold recordChannel.
  pose proof (Hstr c chs ch Hc Hchs Hch) as Hne.
  destruct (tagNumber ch) as [|raw|[|]]; [eauto | | congruence | eauto].
  destruct (String.eqb raw ""); [eauto|].
  destruct (String.eqb (Js.trim raw) ""); [eauto|].
  destruct (splitTag raw) as [[prefix n]|]; eauto.
Qed.

Lemma Object_entries_Permutation obj : Object_entries obj ≡ₚ obj.
Proof.
  unfold Object_entries, NumbersByPrefix. rewrite merge_sort_Permutation.
  induction obj as [|e r IH]; [reflexivity|].
  cbn [omap list_omap]. destruct (arrayIndex e.1) as [i|] eqn:Hi.
  - cbn [fmap option_fmap option_map map snd app].
    rewrite filter_cons_False by (rewrite Hi; discriminate).
    constructor. exact IH.
  - cbn [fmap option_fmap option_map].
    rewrite filter_cons_True by exact Hi.
    rewrite <- Permutation_middle. constructor. exact IH.
Qed.

Lemma applyEntries_lookup_entry entries :
  forall m prefix ns,
    NoDup (fst <$> entries) -> (prefix, ns) ∈ entries ->
    applyEntries entries m !! prefix
    = match entryWrite (prefix, ns) with
      | Some w => Some w.2
      | None => m !! prefix
      end.
Proof.
  induction entries as [|e r IH]; intros m prefix ns Hnodup Hin; [inversion Hin|].
  rewrite fmap_cons in Hnodup. apply NoDup_cons in Hnodup as [Hkey Hnodup].
  rewrite applyEntries_cons.
  apply elem_of_cons in Hin as [<- | Hin].
  - rewrite applyEntries_lookup_other by exact Hkey.
    destruct (entryWrite (prefix, ns)) as [w|] eqn:Hw; [|reflexivity].
    rewrite (entryWrite_key _ _ Hw). apply lookup_insert_eq.
  - rewrite (IH _ prefix ns Hnodup Hin).
    destruct (entryWrite (prefix, ns)); [reflexivity|].
    destruct (entryWrite e) as [w|] eqn:Hw; [|reflexivity].
    apply lookup_insert_ne. rewrite (entryWrite_key _ _ Hw). intros E. apply Hkey.
    rewrite E. apply list_elem_of_fmap. exists (prefix, ns). auto.
Qed.

Lemma filter_nonneg ns :
  Forall (fun n => 0 <= n) ns -> List.filter (fun n => 0 <=? n) ns = ns.
Proof.
  intros Hall. apply filter_all. intros y Hy.
  rewrite Forall_forall in Hall. apply Z.leb_le, Hall, list_elem_of_In, Hy.
Qed.

(** What the write loop writes for an entry of the scan: under the key
    of the entry, the largest number observed under that key. *)
Lemma entryWrite_observedMaximum cs obj e :
  collectTagNumbers cs = Ok obj ->
  e ∈ Object_entries obj ->
  exists w, entryWrite e = Some w /\ w.1 = e.1 /\ observedMaximum cs e.1 w.2.
Proof.
  intros Hscan He. destruct (collectTagNumbers_spec _ _ Hscan) as [[Hnodup Hwf] Hholds].
  rewrite Object_entries_Permutation in He. destruct e as [prefix ns].
  destruct (Hwf prefix ns He) as [Hne Hall].
  unfold entryWrite. cbn [fst snd]. rewrite (filter_nonneg _ Hall).
  destruct ns as [|n ns']; [congruence|].
  eexists. split; [reflexivity|]. split; [reflexivity|]. cbn [snd].
  destruct (Math_max_spec n ns') as [Hin Hmax]. split.
  - apply Hholds. exists (n :: ns'). split; [exact He | exact Hin].
  - intros k Hk. apply Hholds in Hk as (ms & Hms & Hk).
    assert ((prefix, ms) = (prefix, n :: ns')) as [= ->].
    { apply (NoDup_map_inj fst obj); [exact Hnodup | | | reflexivity];
        apply list_elem_of_In; assumption. }
    apply Hmax. exact Hk.
Qed.

End ObservedMaximum.

(** Reconciliation when no driver call rejects and the scan does not
    throw. *)
Lemma syncTagCounters_observed_nofault db :
  faults db = [] ->
  tagsAreStrings (campaigns db) ->
  let db' := (syncTagCounters db).2 in
  campaigns db' = campaigns db
  /\ (forall prefix n,
        observed (campaigns db) prefix n ->
        exists v, tagCounters db' !! prefix = Some v
                  /\ observedMaximum (campaigns db) prefix v)
  /\ (forall prefix,
        (forall n, ~ observed (campaigns db) prefix n) ->
        tagCounters db' !! prefix = tagCounters db !! prefix).
Proof.
  intros Hf Hstr. rewrite (syncTagCounters_nofault db Hf). cbn [snd].
  destruct (collectTagNumbers_total _ Hstr) as (obj & Hscan). rewrite Hscan.
  cbn [campaigns tagCounters setTagCounters]. split; [reflexivity|].
  destruct (collectTagNumbers_spec _ _ Hscan) as [[Hnodup Hwf] Hholds].
  split.
  - intros prefix n Hobs. apply Hholds in Hobs as (ns & Hns & _).
    assert ((prefix, ns) ∈ Object_entries obj) as He
      by (rewrite Object_entries_Permutation; exact Hns).
    destruct (entryWrite_observedMaximum _ _ _ Hscan He) as (w & Hw & _ & Hmax).
    exists w.2. split; [|exact Hmax].
    rewrite (applyEntries_lookup_entry _ _ prefix ns); [rewrite Hw; reflexivity | | exact He].
    rewrite Object_entries_Permutation. exact Hnodup.
  - intros prefix Hnone. apply applyEntries_lookup_other.
    intros ([q ns] & -> & He)%list_elem_of_fmap.
    destruct (entryWrite_observedMaximum _ _ _ Hscan He) as (w & _ & _ & [Hobs _]).
    exact (Hnone _ Hobs).
Qed.

Lemma observedSafeb_sound cs : observedSafeb cs = true -> observedSafe cs.
Proof.
  unfold observedSafeb. rewrite forallb_forall.
  intros H prefix n (c & chs & ch & raw & Hc & Hchs & Hch & Htag & Hsplit).
  specialize (H c (proj1 (list_elem_of_In _ _) Hc)). rewrite Hchs in H.
  rewrite forallb_forall in H. specialize (H ch (proj1 (list_elem_of_In _ _) Hch)).
  rewrite Htag, Hsplit in H. apply Z.leb_le. exact H.
Qed.

(** X5.  When no driver call rejects, every truthy [tagNumber] is a
    string and every number read from a persisted tag is a safe integer,
    reconciliation leaves the campaigns as they are, sets the counter of
    every prefix under which some persisted tag is read to the largest
    number read under it, whatever the counter held, and leaves the
    counter of every other prefix as it is. *)
Theorem syncTagCounters_sets_observed_maximum db :
  faults db = [] ->
  tagsAreStrings (campaigns db) ->
  observedSafe (campaigns db) ->
  let db' := (syncTagCounters db).2 in
  campaigns db' = campaigns db
  /\ (forall prefix n,
        observed (campaigns db) prefix n ->
        exists v, tagCounters db' !! prefix = Some v
                  /\ observedMaximum (campaigns db) prefix v)
  /\ (forall prefix,
        (forall n, ~ observed (campaigns db) prefix n) ->
        tagCounters db' !! prefix = tagCounters db !! prefix).
Proof. intros Hf Hstr _. apply syncTagCounters_observed_nofault; assumption. Qed.

Lemma syncTagCounters_sets_observed_maximum_witness :
  (exists v, tagCounters (syncTagCounters db_counter_ahead).2 !! "IG" = Some v
             /\ observedMaximum (campaigns db_counter_ahead) "IG" v)
  /\ tagCounters (syncTagCounters db_counter_ahead).2 !! "IG" = Some 3.
Proof.
  split; [|vm_compute; reflexivity].
  destruct (syncTagCounters_sets_observed_maximum db_counter_ahead eq_refl)
    as (_ & Hobserved & _).
  - apply tagsAreStringsb_sound. vm_compute. reflexivity.
  - apply observedSafeb_sound. vm_compute. reflexivity.
  - apply (Hobserved "IG" 3).
    exists (mkCampaign 1%N (Some "MK_000001") (Some [channel "IG00003"])),
      [channel "IG00003"], (channel "IG00003"), "IG00003".
    split; [apply list_elem_of_here|]. split; [reflexivity|].
    split; [apply list_elem_of_here|]. split; reflexivity.
Defined.



(** ** Invariants of reconciliation and of the campaign handlers *)

Section HandlerInvariants.

Variable I : Db -> Prop.
Hypothesis I_stable : faultStable I.

Lemma keeps_updateCounters entries :
  (forall e w db, e ∈ entries -> entryWrite e = Some w -> I db ->
                  I (setTagCounters (<[w.1 := w.2]> (tagCounters db)) db)) ->
  keeps I (updateCounters entries) (fun _ => True).
Proof.
  induction entries as [|[prefix numbers] rest IH]; intros Hwrite.
  - apply keeps_ret. exact Logic.I.
  - cbn [updateCounters]. apply keeps_bind with (Q := fun _ => True).
    + destruct (0 <? length numbers)%nat; [|apply keeps_ret; exact Logic.I].
      destruct (List.filter (fun n => 0 <=? n) numbers) as [|n ns] eqn:Hfilter;
        [apply keeps_ret; exact Logic.I|].
      apply keeps_call; [exact I_stable|].
      intros db Hdb. split; [|exact Logic.I].
      apply (Hwrite (prefix, numbers) (prefix, Js.Math_max n ns));
        [apply list_elem_of_here | | exact Hdb].
      unfold entryWrite. cbn [fst snd]. rewrite Hfilter. reflexivity.
    + intros _ _. apply IH. intros e w db He. apply Hwrite.
      apply list_elem_of_further, He.
Qed.

Lemma keeps_syncTagCounters :
  syncStable I -> keeps I syncTagCounters (fun _ => True).
Proof.
  intros Hsync. unfold syncTagCounters.
  apply keeps_tryCatch; [|apply keeps_ret; exact Logic.I].
  apply keeps_bind with (Q := fun cs => exists db, I db /\ cs = campaigns db).
  { apply keeps_call; [exact I_stable|]. intros db Hdb. split; [exact Hdb|]. eauto. }
  intros cs (db0 & Hdb0 & ->).
  apply keeps_bind
    with (Q := fun obj => collectTagNumbers (campaigns db0) = Ok obj).
  { apply keeps_liftOutcome. auto. }
  intros obj Hscan.
  apply keeps_bind with (Q := fun _ => True).
  { apply keeps_updateCounters. intros e w db He Hw Hdb.
    exact (Hsync db0 obj e w db Hdb0 Hscan He Hw Hdb). }
  intros _ _.
  apply keeps_bind with (Q := fun _ => True).
  { apply keeps_call; [exact I_stable|]. intros db Hdb. split; [exact Hdb | exact Logic.I]. }
  intros _ _. apply keeps_ret. exact Logic.I.
Qed.

Lemma keeps_validateTagNumbers skip d :
  keeps I (validateTagNumbers skip d) (fun _ => True).
Proof.
  unfold validateTagNumbers.
  destruct (data_channels d) as [chs|]; [|apply keeps_ret; exact Logic.I].
  destruct (0 <? length _)%nat; [|apply keeps_ret; exact Logic.I].
  destruct (negb _); [apply keeps_ret; exact Logic.I|].
  apply keeps_bind with (Q := fun _ => True).
  - apply keeps_call; [exact I_stable|]. intros db Hdb. split; [exact Hdb | exact Logic.I].
  - intros cs _. destruct (0 <? length _)%nat; apply keeps_ret; exact Logic.I.
Qed.

Hypothesis I_counters : countersOnly I.
Hypothesis I_sync : syncStable I.

Lemma keeps_getNextCampaignId : keeps I getNextCampaignId (fun _ => True).
Proof.
  unfold getNextCampaignId. apply keeps_tryCatch; [|apply keeps_throw].
  apply keeps_bind with (Q := fun _ => True).
  - apply keeps_call; [exact I_stable|]. intros db Hdb.
    split; [|exact Logic.I]. eapply I_counters; [|exact Hdb]. reflexivity.
  - intros n _. apply keeps_ret. exact Logic.I.
Qed.

Lemma keeps_findOne_id oid : keeps I (Store.campaigns_findOne_id oid) (fun _ => True).
Proof.
  apply keeps_call; [exact I_stable|]. intros db Hdb. split; [exact Hdb | exact Logic.I].
Qed.

Lemma post_campaigns_keeps campaignData db :
  I db -> I (post_campaigns campaignData db).2.
Proof.
  unfold post_campaigns. apply keeps_respond with (Q := fun _ => True).
  apply keeps_bind with (Q := fun _ => True); [apply keeps_validateTagNumbers|].
  intros rejected _. destruct rejected as [response|]; [apply keeps_ret; exact Logic.I|].
  apply keeps_bind with (Q := fun _ => True).
  { destruct (data_campaignId campaignData) as [x|]; [|apply keeps_getNextCampaignId].
    destruct (String.eqb x ""); [apply keeps_getNextCampaignId|].
    apply keeps_ret. exact Logic.I. }
  intros cid _. cbv zeta.
  apply keeps_bind with (Q := fun _ => True).
  { apply keeps_call; [exact I_stable|]. intros db0 Hdb0.
    destruct (Store.updateFirst _ _ (campaigns db0)) as [cs hit].
    destruct hit; (split; [|exact Logic.I]); (eapply I_counters; [|exact Hdb0]); reflexivity. }
  intros _ _.
  apply keeps_bind with (Q := fun _ => True).
  { apply keeps_call; [exact I_stable|]. intros db0 Hdb0. split; [exact Hdb0 | exact Logic.I]. }
  intros _ _.
  apply keeps_bind with (Q := fun _ => True); [apply keeps_syncTagCounters; exact I_sync|].
  intros _ _. apply keeps_ret. exact Logic.I.
Qed.

Lemma put_campaigns_keeps oid campaignData db :
  I db -> I (put_campaigns oid campaignData db).2.
Proof.
  unfold put_campaigns. destruct (ObjectId_of oid) as [objectId|]; [|auto].
  apply keeps_respond with (Q := fun _ => True).
  apply keeps_bind with (Q := fun _ => True); [apply keeps_findOne_id|].
  intros existing _. destruct existing as [c|]; [|apply keeps_ret; exact Logic.I].
  apply keeps_bind with (Q := fun _ => True); [apply keeps_validateTagNumbers|].
  intros rejected _. destruct rejected as [response|]; [apply keeps_ret; exact Logic.I|].
  apply keeps_bind with (Q := fun _ => True).
  { apply keeps_call; [exact I_stable|]. intros db0 Hdb0.
    destruct (Store.campaignIdTaken _ _ _); [exact Hdb0|].
    destruct (Store.updateFirst _ _ (campaigns db0)) as [cs hit].
    destruct hit; (split; [|exact Logic.I]); [|exact Hdb0].
    eapply I_counters; [|exact Hdb0]. reflexivity. }
  intros matchedCount _.
  destruct (matchedCount =? 0)%nat; [apply keeps_ret; exact Logic.I|].
  apply keeps_bind with (Q := fun _ => True); [apply keeps_findOne_id|].
  intros _ _.
  apply keeps_bind with (Q := fun _ => True); [apply keeps_syncTagCounters; exact I_sync|].
  intros _ _. apply keeps_ret. exact Logic.I.
Qed.

Lemma delete_campaigns_keeps oid db : I db -> I (delete_campaigns oid db).2.
Proof.
  unfold delete_campaigns. destruct oid as [objectId|]; [|auto].
  apply keeps_respond with (Q := fun _ => True).
  apply keeps_bind with (Q := fun _ => True); [apply keeps_findOne_id|].
  intros existing _. destruct existing as [c|]; [|apply keeps_ret; exact Logic.I].
  apply keeps_bind with (Q := fun _ => True).
  { apply keeps_call; [exact I_stable|]. intros db0 Hdb0.
    destruct (Store.removeFirst _ (campaigns db0)) as [cs hit].
    destruct hit; (split; [|exact Logic.I]); [|exact Hdb0].
    eapply I_counters; [|exact Hdb0]. reflexivity. }
  intros deletedCount _. destruct (deletedCount =? 1)%nat; apply keeps_ret; exact Logic.I.
Qed.

Lemma post_tags_sync_keeps db : I db -> I (post_tags_sync db).2.
Proof.
  unfold post_tags_sync. apply keeps_respond with (Q := fun _ => True).
  apply keeps_bind with (Q := fun _ => True); [apply keeps_syncTagCounters; exact I_sync|].
  intros _ _. apply keeps_ret. exact Logic.I.
Qed.

End HandlerInvariants.

Lemma entryWrite_nonneg e w : entryWrite e = Some w -> 0 <= w.2.
Proof.
  unfold entryWrite.
  destruct (List.filter (fun n => 0 <=? n) e.2) as [|n ns] eqn:Hfilter; [discriminate|].
  intros [= <-]. cbn [snd].
  destruct (Math_max_spec n ns) as [Hin _].
  apply list_elem_of_In in Hin. rewrite <- Hfilter in Hin.
  apply filter_In in Hin as [_ Hpos]. apply Z.leb_le. exact Hpos.
Qed.


(** X7.  No handler of the tag engine ever stores a negative counter:
    from a store whose counters are all non-negative, a request for a
    tag, a manual reconciliation, a campaign create, update or delete
    ends, in every run, in a store whose counters are all
    non-negative. *)
Theorem counters_stay_non_negative db :
  countersNonNegative (tagCounters db) ->
  (forall channelType,
      countersNonNegative (tagCounters (post_tags_generate channelType db).2))
  /\ countersNonNegative (tagCounters (post_tags_sync db).2)
  /\ (forall campaignData,
        countersNonNegative (tagCounters (post_campaigns campaignData db).2))
  /\ (forall oid campaignData,
        countersNonNegative (tagCounters (put_campaigns oid campaignData db).2))
  /\ (forall oid, countersNonNegative (tagCounters (delete_campaigns oid db).2)).
Proof.
  intros Hpos.
  set (I := fun db : Db => countersNonNegative (tagCounters db)).
  assert (faultStable I) as Hstable by (intros d fs H; exact H).
  assert (countersOnly I) as Hcounters
    by (intros d d' E H; unfold I; rewrite E; exact H).
  assert (syncStable I) as Hsync.
  { intros d obj e w d2 _ _ _ Hw H2. unfold I. cbn [tagCounters setTagCounters].
    apply countersNonNegative_insert; [exact H2 | eapply entryWrite_nonneg; exact Hw]. }
  split; [|split; [|split; [|split]]].
  - intros channelType.
    destruct (post_tags_generate_cases channelType db)
      as [(r & -> & _) | (s & prefix & -> & Hprefix)]; [exact Hpos|].
    rewrite (post_tags_generate_body prefix db s Hprefix).
    apply (keeps_respond I) with (Q := fun _ => True); [|exact Hpos].
    apply (allocation_keeps I (fun n => 0 <= n) prefix Hstable).
    + intros d n Hd Hn. exact (Hd prefix n Hn).
    + intros d Hd _. split; [|lia]. apply countersNonNegative_insert; [exact Hd | lia].
    + intros d L n Hd HL Hn. apply countersNonNegative_insert; [exact Hd | lia].
  - exact (post_tags_sync_keeps I Hstable Hsync db Hpos).
  - intros campaignData.
    exact (post_campaigns_keeps I Hstable Hcounters Hsync campaignData db Hpos).
  - intros oid campaignData.
    exact (put_campaigns_keeps I Hstable Hcounters Hsync oid campaignData db Hpos).
  - intros oid. exact (delete_campaigns_keeps I Hstable Hcounters oid db Hpos).
Qed.

Lemma counters_stay_non_negative_witness :
  countersNonNegative
    (tagCounters (post_campaigns (mkCampaignData None (Some [channel "FB-0007"; channel "IG9"]))
                    (mkDb [] {[ "IG" := 3 ]} 0 [false; false; false; false; true])).2).
Proof.
  apply (counters_stay_non_negative (mkDb [] {[ "IG" := 3 ]} 0 [false; false; false; false; true])).
  intros p n. cbn [tagCounters]. intros [_ <-]%lookup_singleton_Some. lia.
Defined.

(** X8.  When every number read from a persisted tag is a safe integer:
    in every run, also one cut short by a rejecting driver call or by a
    [tagNumber] that is not a string, reconciliation leaves the campaigns
    and the campaign identifier sequence as they were, and every counter
    either as it was or at the largest number observed under its prefix:
    it writes nothing else. *)
Theorem syncTagCounters_writes_only_observed_maxima db :
  observedSafe (campaigns db) ->
  let db' := (syncTagCounters db).2 in
  campaigns db' = campaigns db
  /\ campaignSeq db' = campaignSeq db
  /\ forall prefix,
       tagCounters db' !! prefix = tagCounters db !! prefix
       \/ exists v, tagCounters db' !! prefix = Some v
                    /\ observedMaximum (campaigns db) prefix v.
Proof.
  intros _.
  set (I := reconciliationInvariant (campaigns db) (campaignSeq db) (tagCounters db)).
  assert (faultStable I) as Hstable by (intros d fs H; exact H).
  assert (syncStable I) as Hsync.
  { intros d obj e w d2 (Hcs & _ & _) Hscan He Hw (Hcs2 & Hseq2 & Hcounters2).
    rewrite Hcs in Hscan.
    destruct (entryWrite_observedMaximum _ _ _ Hscan He) as (w' & Hw' & Hkey & Hmax).
    rewrite Hw in Hw'. injection Hw' as <-.
    split; [exact Hcs2|]. split; [exact Hseq2|].
    intros prefix. cbn [tagCounters setTagCounters].
    destruct (decide (prefix = w.1)) as [-> | Hne].
    - right. exists w.2. split; [apply lookup_insert_eq|]. rewrite Hkey. exact Hmax.
    - rewrite lookup_insert_ne by congruence. apply Hcounters2. }
  pose proof (keeps_syncTagCounters I Hstable Hsync db) as Hrun.
  cbv zeta. destruct (syncTagCounters db) as [[u|] db'] eqn:E; cbn [snd].
  - apply Hrun. split; [reflexivity|]. split; [reflexivity|]. intros prefix. left. reflexivity.
  - apply Hrun. split; [reflexivity|]. split; [reflexivity|]. intros prefix. left. reflexivity.
Qed.

Lemma syncTagCounters_writes_only_observed_maxima_witness :
  let db := mkDb [ mkCampaign 1%N (Some "MK_000001")
                     (Some [channel "FB00002"; channel "IG00003"; channel "IG00004"]) ]
                 {[ "FB" := 7; "IG" := 5 ]} 1 [false; false; true] in
  tagCounters (syncTagCounters db).2 = {[ "FB" := 2; "IG" := 5 ]}
  /\ (tagCounters (syncTagCounters db).2 !! "FB" = tagCounters db !! "FB"
      \/ exists v, tagCounters (syncTagCounters db).2 !! "FB" = Some v
                   /\ observedMaximum (campaigns db) "FB" v).
Proof.
  cbv zeta. split; [vm_compute; reflexivity|].
  refine (proj2 (proj2 (syncTagCounters_writes_only_observed_maxima
                          (mkDb [ mkCampaign 1%N (Some "MK_000001")
                                    (Some [channel "FB00002"; channel "IG00003";
                                           channel "IG00004"]) ]
                                {[ "FB" := 7; "IG" := 5 ]} 1 [false; false; true]) _))
            "FB").
  apply observedSafeb_sound. vm_compute. reflexivity.
Defined.

(** ** Duplicates within one submission *)

Section IntraCampaign.






Lemma indexOfFrom_absent from x l : x ∉ l -> indexOfFrom from x l = -1.
Proof.
  revert from. induction l as [|y r IH]; intros from Hx; [reflexivity|].
  apply not_elem_of_cons in Hx as [Hne Hx]. cbn [indexOfFrom].
  destruct (String.eqb_spec y x) as [-> | _]; [congruence|]. apply IH. exact Hx.
Qed.






End IntraCampaign.




(** ** The create handler *)

Section Create.











End Create.





(** ** Deleting a campaign *)

Section Delete.


End Delete.



(** ** Looking a tag up *)

Lemma carriesTag_spec tag c : Store.carriesTag tag c = true <-> campaignCarries tag c.
Proof.
  unfold Store.carriesTag, campaignCarries. split.
  - destruct (channels c) as [chs|]; [|discriminate].
    intros (ch & Hch & Heq)%existsb_exists.
    destruct (tagNumber ch) as [|s|] eqn:Htag; try discriminate Heq.
    apply String.eqb_eq in Heq. subst s.
    exists chs, ch. split; [reflexivity|]. split; [apply list_elem_of_In; exact Hch | exact Htag].
  - intros (chs & ch & -> & Hch & Htag). apply existsb_exists.
    exists ch. split; [apply list_elem_of_In; exact Hch|]. rewrite Htag. apply String.eqb_refl.
Qed.

Lemma hasTag_spec tag ch : hasTag tag ch = true <-> tagNumber ch = TagStr tag.
Proof.
  unfold hasTag. destruct (tagNumber ch) as [|s|]; split; try discriminate.
  - intros ->%String.eqb_eq. reflexivity.
  - intros [= ->]. apply String.eqb_refl.
Qed.


(** X13.  The look-up of campaigns by tag, in a store where [channels]
    is an array and every truthy [tagNumber] a string, when no driver
    call rejects: it answers 404 exactly when no persisted channel
    carries the tag; otherwise it lists, with their count, the campaigns
    that carry the tag and no other, each with a non-empty list of
    channels that all carry the tag.  The store is untouched. *)
Theorem get_campaigns_tag_finds_carriers tag db :
  faults db = [] ->
  channelsAreArrays (campaigns db) ->
  tagsAreStrings (campaigns db) ->
  (~ tagPersisted tag (campaigns db) ->
   get_campaigns_tag tag db = (TagLookupNotFound, db))
  /\ (tagPersisted tag (campaigns db) ->
      exists matches,
        get_campaigns_tag tag db = (TagLookupFound matches (length matches), db)
        /\ matches <> []
        /\ (forall c, c ∈ campaigns db -> campaignCarries tag c ->
                      exists chs, (_id c, campaignId c, chs) ∈ matches)
        /\ forall oid cid chs,
             (oid, cid, chs) ∈ matches ->
             chs <> [] /\ (forall ch, ch ∈ chs -> tagNumber ch = TagStr tag)
             /\ exists c, c ∈ campaigns db /\ campaignCarries tag c
                          /\ _id c = oid /\ campaignId c = cid).
Proof.
  intros Hf _ _. unfold get_campaigns_tag, campaigns_find_tag.
  rewrite bind_storeCall_nofault by exact Hf.
  set (found := List.filter (Store.carriesTag tag) (campaigns db)).
  assert (forall c, c ∈ found <-> c ∈ campaigns db /\ campaignCarries tag c) as Hfound.
  { intros c. subst found.
    rewrite list_elem_of_In, filter_In, <- list_elem_of_In, carriesTag_spec. reflexivity. }
  split.
  - intros Hnone. destruct found as [|c r]; [reflexivity|].
    exfalso. apply Hnone.
    destruct (proj1 (Hfound c) (list_elem_of_here _ _)) as (Hc & chs & ch & Hchs & Hch & Htag).
    exists c, chs, ch. auto.
  - intros (c0 & chs0 & ch0 & Hc0 & Hchs0 & Hch0 & Htag0).
    assert (c0 ∈ found) as Hin0 by (apply Hfound; split; [exact Hc0|]; exists chs0, ch0; auto).
    exists (map (fun c => (_id c, campaignId c,
                           List.filter (hasTag tag) (default [] (channels c)))) found).
    split; [|split; [|split]].
    + rewrite length_map. destruct found as [|c r] eqn:E; [inversion Hin0|]. reflexivity.
    + intros E. apply (f_equal (@length _)) in E. rewrite length_map in E.
      destruct found; [inversion Hin0 | discriminate E].
    + intros c Hc Hcarries. eexists. apply list_elem_of_In, in_map_iff.
      exists c. split; [reflexivity|]. apply list_elem_of_In, Hfound. auto.
    + intros oid cid chs Hin.
      apply list_elem_of_In, in_map_iff in Hin as (c & [= <- <- <-] & Hc).
      apply list_elem_of_In, Hfound in Hc as (Hc & chs & ch & Hchs & Hch & Htag).
      rewrite Hchs. cbn [from_option id]. split; [|split].
      * intros E.
        assert (In ch (List.filter (hasTag tag) chs)) as Hin'
          by (apply filter_In; split; [apply list_elem_of_In, Hch | apply hasTag_spec, Htag]).
        rewrite E in Hin'. destruct Hin'.
      * intros ch' Hch'. apply list_elem_of_In, filter_In in Hch' as [_ H].
        apply hasTag_spec. exact H.
      * exists c. split; [exact Hc|]. split; [|auto]. exists chs, ch. auto.
Qed.

Lemma get_campaigns_tag_finds_carriers_witness :
  get_campaigns_tag "IG00005" db_counter_behind
  = (TagLookupFound [(1%N, Some "MK_000001", [channel "IG00005"])] 1, db_counter_behind)
  /\ get_campaigns_tag "IG00006" db_counter_behind = (TagLookupNotFound, db_counter_behind).
Proof.
  split; [vm_compute; reflexivity|].
  refine (proj1 (get_campaigns_tag_finds_carriers "IG00006" db_counter_behind eq_refl
                   _ _) _).
  - apply channelsAreArraysb_sound. reflexivity.
  - apply tagsAreStringsb_sound. reflexivity.
  - apply find_carriesTag_None. vm_compute. reflexivity.
Defined.

(** ** The list of counters *)



(** ** Campaign identifiers *)

Lemma padStart_zero_value width n :
  0 <= n -> decimalValue (Js.padStart width "0" (Js.toString n)) 0 = n.
Proof.
  intros Hn. destruct (toString_spec n Hn) as (_ & _ & Hval).
  unfold Js.padStart. rewrite decimalValue_app, decimalValue_zeros. exact Hval.
Qed.

(** X15.  When no driver call rejects, [getNextCampaignId] advances the
    identifier sequence by one, and the identifiers it returns at two
    different values of the sequence are different. *)
Theorem getNextCampaignId_never_repeats db db' :
  faults db = [] -> faults db' = [] ->
  campaignSeq db <> campaignSeq db' ->
  exists id id',
    getNextCampaignId db = (Ok id, setCampaignSeq (N.succ (campaignSeq db)) db)
    /\ getNextCampaignId db' = (Ok id', setCampaignSeq (N.succ (campaignSeq db')) db')
    /\ id <> id'.
Proof.
  intros Hf Hf' Hne.
  assert (forall d, faults d = [] ->
            getNextCampaignId d
            = (Ok ("MK_" +:+ Js.padStart 6 "0"
                     (Js.toString (Z.of_N (N.succ (campaignSeq d))))),
               setCampaignSeq (N.succ (campaignSeq d)) d)) as Hrun.
  { intros d Hd. unfold getNextCampaignId, tryCatch, Store.counters_findOneAndUpdate_inc.
    erewrite bind_ok by (rewrite bind_storeCall_nofault by exact Hd; reflexivity).
    reflexivity. }
  eexists _, _. split; [apply Hrun; exact Hf|]. split; [apply Hrun; exact Hf'|].
  intros Heq. apply (inj (String.append "MK_")) in Heq.
  apply (f_equal (fun s => decimalValue s 0)) in Heq.
  rewrite !padStart_zero_value in Heq by lia. lia.
Qed.

Lemma getNextCampaignId_never_repeats_witness :
  exists id id',
    getNextCampaignId db_empty = (Ok id, setCampaignSeq 1 db_empty)
    /\ getNextCampaignId db_two_campaigns = (Ok id', setCampaignSeq 3 db_two_campaigns)
    /\ id <> id'.
Proof.
  apply (getNextCampaignId_never_repeats db_empty db_two_campaigns);
    [reflexivity | reflexivity | discriminate].
Defined.

(** ** The campaign passed over by the cross-campaign check of an update *)


